(** * Programming Activity System: a shallow embedding of [main.cpp]

    The console program is modelled over an explicit I/O state: the
    characters still to be read from [cin] and the sequence of values
    inserted into [cout].  Loops that wait for valid input are unbounded in
    the source; they are modelled with a fuel argument, and facts about them
    are stated for every amount of fuel or through [returns], which asks for
    some amount of fuel. *)

From Stdlib Require Import ZArith List String Ascii Bool Lia.
From Stdlib Require Import Floats.SpecFloat.
From Stdlib Require Import Numbers.DecimalString.
From Equations Require Import Equations.
Import ListNotations.

Open Scope Z_scope.

(** ** Characters and the input stream

    [cin] is the list of the characters that are still to be read; the
    empty list is the end of the input.  The extractions follow
    [num_get] of the C++ standard as libstdc++ implements it in the C
    locale.  The error flags of the stream are not kept: [failbit] is
    either cleared at once by [getValidated], or set at the end of the
    input, where every later operation fails and consumes nothing just as
    it does here on the empty list. *)

Definition istream := list ascii.

Definition newline : ascii := "010"%char.
Definition nl : string := String newline EmptyString.

Definition code (c : ascii) : Z := Z.of_N (N_of_ascii c).

(** [isspace] of the C locale: space, and HT, LF, VT, FF, CR. *)
Definition isspace (c : ascii) : bool :=
  (code c =? 32) || ((9 <=? code c) && (code c <=? 13)).

Definition isdigit (c : ascii) : bool :=
  (48 <=? code c) && (code c <=? 57).

Definition digit_val (c : ascii) : Z := code c - 48.

(** [tolower] of the C locale. *)
Definition tolower (c : ascii) : ascii :=
  if (65 <=? code c) && (code c <=? 90)
  then ascii_of_N (Z.to_N (code c + 32))
  else c.

(** The leading white space skipped by a formatted extraction. *)
Fixpoint skipws (s : istream) : istream :=
  match s with
  | c :: r => if isspace c then skipws r else s
  | [] => []
  end.

(** [cin.ignore(numeric_limits<streamsize>::max(), '\n')]: characters are
    discarded up to and including the first newline, or to the end. *)
Fixpoint ignore_line (s : istream) : istream :=
  match s with
  | [] => []
  | c :: r => if Ascii.eqb c newline then r else ignore_line r
  end.

(** [cin.get()]: one character, if there is one. *)
Definition get_char (s : istream) : istream := tl s.

Fixpoint span_digits (s : istream) : list ascii * istream :=
  match s with
  | c :: r =>
      if isdigit c then let '(ds, r') := span_digits r in (c :: ds, r')
      else ([], s)
  | [] => ([], [])
  end.

Definition digits_value (ds : list ascii) : Z :=
  fold_left (fun acc c => 10 * acc + digit_val c) ds 0.

(** An optional sign in front of a number. *)
Definition take_sign (s : istream) : bool * istream :=
  match s with
  | c :: r =>
      if Ascii.eqb c "-"%char then (true, r)
      else if Ascii.eqb c "+"%char then (false, r)
      else (false, s)
  | [] => (false, [])
  end.

(** ** [int] *)

Definition INT_MIN : Z := -2147483648.
Definition INT_MAX : Z := 2147483647.

Definition in_int (v : Z) : bool := (INT_MIN <=? v) && (v <=? INT_MAX).

(** [cin >> int]: white space is skipped, then an optional sign and the
    longest run of decimal digits are taken.  The extraction fails when
    there is no digit or when the value does not fit an [int]; the
    characters taken are consumed either way, and the first character that
    is not a digit stays in the stream. *)
Definition extract_int (s : istream) : option Z * istream :=
  let '(neg, s1) := take_sign (skipws s) in
  let '(ds, s2) := span_digits s1 in
  match ds with
  | [] => (None, s2)
  | _ :: _ =>
      let v := if neg then - digits_value ds else digits_value ds in
      if in_int v then (Some v, s2) else (None, s2)
  end.

(** ** [double]: IEEE 754 binary64 *)

Definition double := spec_float.

Definition prec : Z := 53.
Definition emax : Z := 1024.

Definition dadd : double -> double -> double := SFadd prec emax.
Definition dsub : double -> double -> double := SFsub prec emax.
Definition dmul : double -> double -> double := SFmul prec emax.
Definition ddiv : double -> double -> double := SFdiv prec emax.

(** [x < y], [x > y] and [x >= y]: false when an operand is a NaN. *)
Definition dlt (x y : double) : bool :=
  match SFcompare x y with Some Lt => true | _ => false end.
Definition dgt (x y : double) : bool :=
  match SFcompare x y with Some Gt => true | _ => false end.
Definition dge (x y : double) : bool :=
  match SFcompare x y with Some (Gt | Eq) => true | _ => false end.
Definition dle (x y : double) : bool :=
  match SFcompare x y with Some (Lt | Eq) => true | _ => false end.

(** Conversion of an [int] to [double]. *)
Definition of_int (z : Z) : double := binary_normalize prec emax z 0 false.

(** The double nearest to [(-1)^neg * m * 10^e] (ties to even), as [strtod]
    and the compiler compute it for a decimal numeral. *)
Definition of_decimal (neg : bool) (m : Z) (e : Z) : double :=
  match m with
  | Zpos p =>
      match e with
      | Zneg k =>
          let '(mz, ez, lz) :=
            SFdiv_core_binary prec emax (Zpos p) 0 (Z.pow_pos 10 k) 0 in
          binary_round_aux prec emax neg mz ez lz
      | _ => binary_round prec emax neg (Z.to_pos (Zpos p * 10 ^ e)) 0
      end
  | _ => S754_zero neg
  end.

Definition is_infinity (d : double) : bool :=
  match d with S754_infinity _ => true | _ => false end.

Definition is_exp_mark (c : ascii) : bool :=
  Ascii.eqb c "e"%char || Ascii.eqb c "E"%char.

(** The exponent part of a numeral, read once the mantissa has a digit:
    [e] or [E], an optional sign, digits.  [Some None] is an exponent
    mark without digits. *)
Definition take_exponent (s : istream) : option (option Z) * istream :=
  match s with
  | c :: r =>
      if is_exp_mark c then
        let '(eneg, r1) := take_sign r in
        let '(ds, r2) := span_digits r1 in
        match ds with
        | [] => (Some None, r2)
        | _ :: _ =>
            (Some (Some (if eneg then - digits_value ds else digits_value ds)), r2)
        end
      else (None, s)
  | [] => (None, [])
  end.

(** [cin >> double]: white space is skipped; an optional sign, digits, at
    most one decimal point, digits and, when a digit was seen, an exponent
    are taken.  The extraction fails without a mantissa digit, with an
    exponent mark that has no digits, and when the value overflows. *)
Definition extract_double (s : istream) : option double * istream :=
  let '(neg, s1) := take_sign (skipws s) in
  let '(ip, s2) := span_digits s1 in
  let '(fp, s3) :=
    match s2 with
    | c :: r => if Ascii.eqb c "."%char then span_digits r else ([], s2)
    | [] => ([], [])
    end in
  match ip ++ fp with
  | [] => (None, s3)
  | _ :: _ =>
      let '(ex, s4) := take_exponent s3 in
      let finish (e : Z) :=
        let v :=
          of_decimal neg (digits_value (ip ++ fp))
            (e - Z.of_nat (List.length fp)) in
        if is_infinity v then (None, s4) else (Some v, s4) in
      match ex with
      | Some None => (None, s4)
      | Some (Some e) => finish e
      | None => finish 0
      end
  end.

(** [cin >> string]: white space is skipped and the characters up to the
    next white space are taken; it fails when there is none. *)
Fixpoint span_word (s : istream) : string * istream :=
  match s with
  | c :: r =>
      if isspace c then (EmptyString, s)
      else let '(w, r') := span_word r in (String c w, r')
  | [] => (EmptyString, [])
  end.

Definition extract_string (s : istream) : option string * istream :=
  let '(w, r) := span_word (skipws s) in
  match w with
  | EmptyString => (None, r)
  | String _ _ => (Some w, r)
  end.

(** [operator>>] is overloaded on the type that is read. *)
Class Extractable (T : Type) := extract : istream -> option T * istream.

#[export] Instance Extractable_int : Extractable Z := extract_int.
#[export] Instance Extractable_double : Extractable double := extract_double.
#[export] Instance Extractable_string : Extractable string := extract_string.

(** ** The output stream

    [cout] is the sequence of the operands of [<<], in order. *)

Inductive manip :=
| fixed
| setprecision (n : Z)
| setw (n : Z)
| left_
| right_.

Inductive out_item :=
| OStr (s : string)
| OInt (n : Z)
| ODouble (d : double)
| OManip (m : manip).

Definition ostream := list out_item.

Definition string_of_Z (z : Z) : string := NilZero.string_of_int (Z.to_int z).

(** The characters an item puts on the terminal.  Only text and integers
    in the default format are rendered; the text of a formatted [double] is
    not modelled. *)
Definition item_text (x : out_item) : option string :=
  match x with
  | OStr s => Some s
  | OInt n => Some (string_of_Z n)
  | ODouble _ => None
  | OManip _ => None
  end.

Fixpoint text_of (o : ostream) : option string :=
  match o with
  | [] => Some EmptyString
  | x :: r =>
      match item_text x, text_of r with
      | Some a, Some b => Some (a ++ b)%string
      | _, _ => None
      end
  end.

(** The lines of a text: each newline ends a line; characters after the
    last newline form a last line. *)
Fixpoint lines_from (cur : string) (s : string) : list string :=
  match s with
  | EmptyString =>
      match cur with EmptyString => [] | String _ _ => [cur] end
  | String c r =>
      if Ascii.eqb c newline then cur :: lines_from EmptyString r
      else lines_from (cur ++ String c EmptyString)%string r
  end.

Definition lines (s : string) : list string := lines_from EmptyString s.

(** [string(n, c)] *)
Fixpoint string_fill (n : nat) (c : ascii) : string :=
  match n with
  | O => EmptyString
  | S n' => String c (string_fill n' c)
  end.

(** ** The I/O state and its monad *)

Record io := mkIO { cin : istream; cout : ostream }.

(** A computation returns a value and a new state, or [None] when the fuel
    of a loop ran out.  At the end of the input a read loop of the source
    never ends: it fails, prints its error and fails again; here it
    answers [None] for every amount of fuel. *)
Definition M (A : Type) : Type := io -> option (A * io).

Definition ret {A} (a : A) : M A := fun st => Some (a, st).

Definition bind {A B} (c : M A) (k : A -> M B) : M B :=
  fun st => match c st with
            | Some (a, st') => k a st'
            | None => None
            end.

Declare Scope io_scope.
Delimit Scope io_scope with io.
Notation "x <- c ;; k" := (bind c (fun x => k))
  (at level 61, c at next level, right associativity) : io_scope.
Notation "c ;; k" := (bind c (fun _ => k))
  (at level 61, right associativity) : io_scope.
Open Scope io_scope.
Open Scope string_scope.

(** [cout << x] *)
Definition print (x : out_item) : M unit :=
  fun st => Some (tt, mkIO (cin st) (cout st ++ [x])%list).

Definition print_str (s : string) : M unit := print (OStr s).

(** An operation on [cin] alone. *)
Definition on_cin (f : istream -> istream) : M unit :=
  fun st => Some (tt, mkIO (f (cin st)) (cout st)).

(** [cin >> var]: [None] stands for [cin.fail()]. *)
Definition cin_extract {T} `{Extractable T} : M (option T) :=
  fun st => let '(r, s) := extract (cin st) in Some (r, mkIO s (cout st)).

(** A loop that runs its body until the body leaves it with a value.  The
    body answers [None] to go round again. *)
Fixpoint loop {A} (body : nat -> M (option A)) (fuel : nat) : M A :=
  match fuel with
  | O => fun _ => None
  | S fuel' =>
      r <- body fuel' ;;
      match r with
      | Some a => ret a
      | None => loop body fuel'
      end
  end.

Definition again {A} : M (option A) := ret None.
Definition leave {A} (a : A) : M (option A) := ret (Some a).

(** ** class UI *)
Module UI.

Definition header (title : string) : M unit :=
  print_str (nl ++ ">>> ===== ") ;;
  print_str title ;;
  print_str (" ===== <<<" ++ nl).

Definition line : M unit :=
  print_str (string_fill 45 "-"%char) ;;
  print_str nl.

Definition goodbyeMessage (message : string) : M unit :=
  print_str message.

Definition pauseBuffer : M unit :=
  print_str (nl ++ ">>> Press Enter to continue...") ;;
  on_cin ignore_line ;;
  on_cin get_char.

End UI.

(** ** class InputValidator *)
Module InputValidator.

Definition parse_error : string :=
  nl ++ "[ERROR] Invalid input! Try again." ++ nl.

Definition getValidated {T} `{Extractable T} (prompt : string)
  : nat -> M T :=
  loop (fun _ =>
    print_str prompt ;;
    r <- cin_extract ;;
    match r with
    | Some var => leave var
    | None =>
        print_str parse_error ;;
        (* cin.clear() resets the failure that [None] stands for *)
        on_cin ignore_line ;;
        again
    end).

Definition getValidatedChoice (prompt : string) (min max : Z)
  : nat -> M Z :=
  loop (fun fuel =>
    choice <- getValidated prompt fuel ;;
    if ((choice <? min) || (choice >? max))%Z then
      print_str "[ERROR] Choice must be " ;;
      print (OInt min) ;;
      print_str "-" ;;
      print (OInt max) ;;
      print_str (". Try again." ++ nl) ;;
      again
    else leave choice).

Definition getValidatedDouble (prompt : string) (min max : double)
  : nat -> M double :=
  loop (fun fuel =>
    value <- getValidated prompt fuel ;;
    if dlt value min || dgt value max then
      print_str "[ERROR] Value must be between " ;;
      print (ODouble min) ;;
      print_str " and " ;;
      print (ODouble max) ;;
      print_str (". Try again." ++ nl) ;;
      again
    else leave value).

Fixpoint lowercase (s : string) : string :=
  match s with
  | EmptyString => EmptyString
  | String c r => String (tolower c) (lowercase r)
  end.

Definition getValidatedYesNo (prompt : string) : nat -> M bool :=
  loop (fun fuel =>
    input <- getValidated (prompt ++ " (y/n): ") fuel ;;
    let input := lowercase input in
    if (input =? "y") || (input =? "yes") then leave true
    else if (input =? "n") || (input =? "no") then leave false
    else
      print_str ("[ERROR] Please type 'y' or 'n'." ++ nl) ;;
      again).

End InputValidator.

(** ** class VirtualStudentInfo *)
Module VirtualStudentInfo.

Definition run : M unit :=
  UI.header "Virtual Student Info" ;;
  print_str ("Name: Alberto Jr Deniros" ++ nl) ;;
  print_str ("Section and Course: BSCS 1-A" ++ nl) ;;
  print_str ("AGE: 23" ++ nl) ;;
  print_str ("GENDER: MALE" ++ nl) ;;
  print_str ("CODING DEVICES: Desktop Computer" ++ nl) ;;
  UI.pauseBuffer.

End VirtualStudentInfo.

(** ** class StudentGradeEvaluator *)
Module StudentGradeEvaluator.

Record Grade := mkGrade { name : string; value : double }.

Definition NUMBER_OF_GRADES : Z := 4.
Definition PASSING_GRADE : Z := 80.
Definition MIN_GRADE : Z := 0.
Definition MAX_GRADE : Z := 100.

Definition grades : list Grade :=
  [ mkGrade "Prelim" (of_int 0);
    mkGrade "Midterm" (of_int 0);
    mkGrade "PreFinal" (of_int 0);
    mkGrade "Final" (of_int 0) ].

(** The loop over the [NUMBER_OF_GRADES] entries of the array: each entry
    is read and added to [sum]. *)
Fixpoint collect (fuel : nat) (gs : list Grade) (sum : double)
  : M (list Grade * double) :=
  match gs with
  | [] => ret ([], sum)
  | g :: rest =>
      v <- InputValidator.getValidatedDouble
             ("Enter " ++ name g ++ " Grade: ")
             (of_int MIN_GRADE) (of_int MAX_GRADE) fuel ;;
      r <- collect fuel rest (dadd sum v) ;;
      ret (mkGrade (name g) v :: fst r, snd r)
  end.

Definition run (fuel : nat) : M unit :=
  UI.header "Student Grade Evaluator" ;;
  r <- collect fuel grades (of_int 0) ;;
  let sum := snd r in
  let average := ddiv sum (of_int NUMBER_OF_GRADES) in
  UI.line ;;
  print_str "Passing grade: " ;; print (OInt PASSING_GRADE) ;; print_str nl ;;
  print_str "Your average: " ;; print (ODouble average) ;; print_str nl ;;
  print_str "REMARKS: " ;;
  (if dge average (of_int PASSING_GRADE)
   then UI.header "PASADO KA BOI!!"
   else UI.header "BAGSAK KA BOI!!") ;;
  UI.line ;;
  UI.pauseBuffer.

End StudentGradeEvaluator.

(** ** class TriangleLoopActivity *)
Module TriangleLoopActivity.

(** The counters of the loops below stay between 0 and [height + 1], so
    no [int] operation in them wraps around. *)

(** [for (j = ..; j <= i; j++) cout << "*";] *)
Equations? stars_up (j i : Z) (o : ostream) : ostream
  by wf (Z.to_nat (i + 1 - j)) lt :=
  stars_up j i o with Z_le_gt_dec j i := {
    | left _ => stars_up (j + 1) i (o ++ [OStr "*"])%list
    | right _ => o }.
Proof. lia. Qed.

(** [for (i = ..; i < height; i++) { stars; cout << "\n"; }] *)
Equations? right_rows (i height : Z) (o : ostream) : ostream
  by wf (Z.to_nat (height - i)) lt :=
  right_rows i height o with Z_lt_ge_dec i height := {
    | left _ =>
        right_rows (i + 1) height (stars_up 0 i o ++ [OStr nl])%list
    | right _ => o }.
Proof. lia. Qed.

(** [for (j = ..; j > i; j--) cout << "*";] *)
Equations? stars_down (j i : Z) (o : ostream) : ostream
  by wf (Z.to_nat (j - i)) lt :=
  stars_down j i o with Z_gt_le_dec j i := {
    | left _ => stars_down (j - 1) i (o ++ [OStr "*"])%list
    | right _ => o }.
Proof. lia. Qed.

Equations? inverted_rows (i height : Z) (o : ostream) : ostream
  by wf (Z.to_nat (height - i)) lt :=
  inverted_rows i height o with Z_lt_ge_dec i height := {
    | left _ =>
        inverted_rows (i + 1) height
          (stars_down height i o ++ [OStr nl])%list
    | right _ => o }.
Proof. lia. Qed.

Definition on_cout (f : ostream -> ostream) : M unit :=
  fun st => Some (tt, mkIO (cin st) (f (cout st))).

Definition displayRightTriangle (height : Z) : M unit :=
  on_cout (right_rows 0 height).

Definition displayInvertedTriangle (height : Z) : M unit :=
  on_cout (inverted_rows 0 height).

Definition MIN_MENU_OPTION : Z := 1.
Definition MAX_MENU_OPTION : Z := 4.
Definition MIN_HEIGHT : Z := 1.
Definition MAX_HEIGHT : Z := 20.

Definition show_menu : M unit :=
  print_str ("Triangle Options:" ++ nl) ;;
  print_str ("1. Right Triangle" ++ nl) ;;
  print_str ("2. Inverted Triangle" ++ nl) ;;
  print_str ("3. Both" ++ nl) ;;
  print_str ("4. Exit" ++ nl) ;;
  UI.line.

(** The labels of the [switch (menuChoice)]. *)
Inductive label := case_1 | case_2 | case_3 | default.

Definition select (menuChoice : Z) : label :=
  match menuChoice with
  | 1 => case_1
  | 2 => case_2
  | 3 => case_3
  | _ => default
  end%Z.

(** The statements of each label, up to its [break]. *)
Definition dispatch (l : label) (height : Z) : M unit :=
  match l with
  | case_1 =>
      print_str ("Right Triangle:" ++ nl) ;;
      displayRightTriangle height ;;
      UI.pauseBuffer
  | case_2 =>
      print_str ("Inverted Triangle:" ++ nl) ;;
      displayInvertedTriangle height ;;
      UI.pauseBuffer
  | case_3 =>
      print_str ("Right Triangle:" ++ nl) ;;
      displayRightTriangle height ;;
      print_str (nl ++ "Inverted Triangle:" ++ nl) ;;
      displayInvertedTriangle height ;;
      UI.pauseBuffer
  | default =>
      print_str "[ERROR] Choice must be 1-4. Try again."
  end.

Definition leave_menu : M unit :=
  UI.goodbyeMessage ("Exiting Triangle Activity..." ++ nl) ;;
  UI.goodbyeMessage ("Successfully Navigated to Main Menu" ++ nl ++ nl).

(** One turn of the [while (true)] loop. *)
Definition turn (fuel : nat) : M (option unit) :=
  show_menu ;;
  menuChoice <- InputValidator.getValidatedChoice "Enter choice (1-4): "
                  MIN_MENU_OPTION MAX_MENU_OPTION fuel ;;
  if (menuChoice =? 4)%Z then
    leave_menu ;;
    leave tt
  else
    height <- InputValidator.getValidatedChoice "Enter height (1-20): "
                MIN_HEIGHT MAX_HEIGHT fuel ;;
    print_str nl ;;
    dispatch (select menuChoice) height ;;
    print_str nl ;;
    again.

Definition run (fuel : nat) : M unit :=
  UI.header "Triangle Loop Activity" ;;
  loop turn fuel.

End TriangleLoopActivity.

(** ** class CurrencyExchangeCalculator *)
Module CurrencyExchangeCalculator.

Definition USD_RATE : double := of_decimal false 582554 (-4).
Definition EUR_RATE : double := of_decimal false 676375 (-4).
Definition JPY_RATE : double := of_decimal false 3818 (-4).
Definition AUD_RATE : double := of_decimal false 383071 (-4).
Definition TRANSACTION_FEE_RATE : double := of_decimal false 5 (-2).

(** The literal [1.0]. *)
Definition one : double := of_decimal false 10 (-1).

Definition displayRates : M unit :=
  UI.header "Today's Exchange Rates" ;;
  UI.line ;;
  print (OManip fixed) ;; print (OManip (setprecision 4)) ;;
  print_str "USD ($)   : 1 PHP = " ;; print (ODouble (ddiv one USD_RATE)) ;;
  print_str (" USD" ++ nl) ;;
  print_str "EUR (€)   : 1 PHP = " ;; print (ODouble (ddiv one EUR_RATE)) ;;
  print_str (" EUR" ++ nl) ;;
  print_str "JPY (¥)   : 1 PHP = " ;; print (ODouble (ddiv one JPY_RATE)) ;;
  print_str (" JPY" ++ nl) ;;
  print_str "AUD (A$)  : 1 PHP = " ;; print (ODouble (ddiv one AUD_RATE)) ;;
  print_str (" AUD" ++ nl) ;;
  UI.line ;;
  print (OManip (setprecision 0)) ;; print_str "Transaction Fee" ;;
  print_str ": " ;;
  print (ODouble (dmul TRANSACTION_FEE_RATE (of_int 100))) ;;
  print_str ("%" ++ nl) ;;
  print_str "Minimum Transaction" ;; print_str (": ₱100" ++ nl) ;;
  print_str "Maximum Transaction" ;; print_str (": ₱100,000" ++ nl) ;;
  UI.line.

Definition label_w : Z := 14.
Definition rate_w : Z := 14.
Definition val_w : Z := 12.

(** One row of the table of converted amounts. *)
Definition row (label : string) (rate converted : double) (unit_ : string)
  : M unit :=
  print (OManip left_) ;; print (OManip (setw label_w)) ;; print_str label ;;
  print (OManip left_) ;; print (OManip (setw rate_w)) ;;
  print (ODouble rate) ;; print_str "     " ;;
  print (ODouble converted) ;; print_str unit_.

Definition summary (label : string) (amount : double) : M unit :=
  print (OManip (setw 18)) ;; print (OManip left_) ;; print_str label ;;
  print_str ": ₱" ;; print (ODouble amount) ;; print_str nl.

Definition displayConversion
  (amountInPHP fee netPHP usd eur jpy aud : double) : M unit :=
  UI.header "Conversion Result" ;;
  UI.line ;;
  print (OManip fixed) ;; print (OManip (setprecision 2)) ;;
  summary "Original Amount" amountInPHP ;;
  summary "Transaction Fee" fee ;;
  summary "Net Amount" netPHP ;;
  UI.line ;;
  print (OManip left_) ;; print (OManip (setw label_w)) ;;
  print_str "Currency" ;;
  print (OManip left_) ;; print (OManip (setw rate_w)) ;;
  print_str "Rate (PHP per ₱1)" ;;
  print (OManip right_) ;; print (OManip (setw val_w)) ;;
  print_str "Converted" ;; print_str nl ;;
  row "USD ($)       " USD_RATE usd (" USD" ++ nl) ;;
  row "EUR (€)       " EUR_RATE eur (" EUR" ++ nl) ;;
  row "JPY (¥)       " JPY_RATE jpy (" JPY" ++ nl) ;;
  row "AUD (A$)      " AUD_RATE aud (" AUD" ++ nl).

Definition convertCurrency (fuel : nat) : M unit :=
  amountInPHP <- InputValidator.getValidatedDouble
                   "Enter amount in PHP (₱): "
                   (of_int 100) (of_int 100000) fuel ;;
  print_str ("A 5% transaction fee will be charged for the exchange." ++ nl) ;;
  proceed <- InputValidator.getValidatedYesNo
               "Would you like to proceed?" fuel ;;
  if negb proceed then
    UI.goodbyeMessage ("Transaction cancelled." ++ nl)
  else
    let fee := dmul amountInPHP TRANSACTION_FEE_RATE in
    let netPHP := dsub amountInPHP fee in
    let usd := ddiv netPHP USD_RATE in
    let eur := ddiv netPHP EUR_RATE in
    let jpy := ddiv netPHP JPY_RATE in
    let aud := ddiv netPHP AUD_RATE in
    displayConversion amountInPHP fee netPHP usd eur jpy aud.

Definition MIN_MENU_OPTION : Z := 1.
Definition MAN_MENU_OPTION : Z := 3.

Definition show_menu : M unit :=
  UI.header "Currency Exchange Calculator" ;;
  print_str ("Currency Exchange Options:" ++ nl) ;;
  print_str ("1. Exchange Currency" ++ nl) ;;
  print_str ("2. View Rates" ++ nl) ;;
  print_str ("3. Exit" ++ nl) ;;
  UI.line.

Inductive label := case_1 | case_2 | default.

Definition select (menuChoice : Z) : label :=
  match menuChoice with
  | 1 => case_1
  | 2 => case_2
  | _ => default
  end%Z.

Definition dispatch (l : label) (fuel : nat) : M unit :=
  match l with
  | case_1 => convertCurrency fuel ;; UI.pauseBuffer
  | case_2 => displayRates ;; UI.pauseBuffer
  | default => print_str ("[ERROR] Choice must be 1-3. Try again." ++ nl)
  end.

Definition leave_menu : M unit :=
  UI.goodbyeMessage ("Exiting Currency Exchange Calculator..." ++ nl) ;;
  UI.goodbyeMessage ("Successfully Navigated to Main Menu" ++ nl ++ nl).

Definition turn (fuel : nat) : M (option unit) :=
  show_menu ;;
  menuChoice <- InputValidator.getValidatedChoice "Enter choice (1-3): "
                  MIN_MENU_OPTION MAN_MENU_OPTION fuel ;;
  if (menuChoice =? 3)%Z then
    leave_menu ;;
    leave tt
  else
    dispatch (select menuChoice) fuel ;;
    again.

Definition run (fuel : nat) : M unit := loop turn fuel.

End CurrencyExchangeCalculator.

(** ** class Program *)
Module Program.

Definition menuItems : list string :=
  [ "Virtual Student Info";
    "Student Grade Evaluator";
    "Triangle Loop Activity";
    "Currency Exchange Calculator";
    "Exit Program" ].

Definition size : Z := Z.of_nat (List.length menuItems).

(** [for (i = ..; i < menuItems.size(); ++i)], over the items from
    index [i] on. *)
Fixpoint show_items (i : Z) (items : list string) : M unit :=
  match items with
  | [] => ret tt
  | item :: rest =>
      print_str "[" ;; print (OInt (i + 1)) ;; print_str "] " ;;
      print_str item ;; print_str nl ;;
      show_items (i + 1) rest
  end.

Definition show_menu : M unit :=
  UI.line ;;
  print_str (">>> ===== PROGRAMMING ACTIVITY MENU ===== <<<" ++ nl) ;;
  UI.line ;;
  show_items 0 menuItems ;;
  UI.line.

Inductive label := case_1 | case_2 | case_3 | case_4 | case_5 | default.

Definition select (menuChoice : Z) : label :=
  match menuChoice with
  | 1 => case_1
  | 2 => case_2
  | 3 => case_3
  | 4 => case_4
  | 5 => case_5
  | _ => default
  end%Z.

(** The statements of each label; [case 5] returns from [run], the
    others go round the loop again. *)
Definition dispatch (l : label) (fuel : nat) : M (option unit) :=
  match l with
  | case_1 => VirtualStudentInfo.run ;; again
  | case_2 => StudentGradeEvaluator.run fuel ;; again
  | case_3 => TriangleLoopActivity.run fuel ;; again
  | case_4 => CurrencyExchangeCalculator.run fuel ;; again
  | case_5 =>
      UI.goodbyeMessage ("Exiting program... Goodbye!" ++ nl) ;;
      leave tt
  | default =>
      print_str ("[ERROR] Choice must be 1-5. Try again." ++ nl) ;;
      again
  end.

Definition turn (fuel : nat) : M (option unit) :=
  show_menu ;;
  menuChoice <- InputValidator.getValidatedChoice
                  ("Enter choice (1-" ++ string_of_Z size ++ "): ")
                  1 size fuel ;;
  dispatch (select menuChoice) fuel.

Definition run (fuel : nat) : M unit :=
  print_str nl ;; print_str (string_fill 45 "*"%char) ;; print_str nl ;;
  print_str ("   WELCOME TO PROGRAMMING ACTIVITY SYSTEM" ++ nl) ;;
  print_str (string_fill 45 "*"%char) ;; print_str nl ;;
  loop turn fuel.

End Program.

(** [main] *)
Definition main (fuel : nat) (input : string) : option ostream :=
  match Program.run fuel (mkIO (list_ascii_of_string input) []) with
  | Some (_, st) => Some (cout st)
  | None => None
  end.

(** * The vocabulary of the properties *)

Section Vocabulary.
Import InputValidator TriangleLoopActivity CurrencyExchangeCalculator.

Definition star : out_item := OStr "*".

(** The rows printed from row [i] on, [n] of them: row [i] has [width i]
    stars. *)
Fixpoint rows (width : Z -> nat) (i : Z) (n : nat) : ostream :=
  match n with
  | O => []
  | S n' => (repeat star (width i) ++ [OStr nl] ++ rows width (i + 1) n')%list
  end.

(** The text of [n] rows, and its lines. *)
Fixpoint rows_text (width : Z -> nat) (i : Z) (n : nat) : string :=
  match n with
  | O => EmptyString
  | S n' => string_fill (width i) "*"%char ++ nl ++ rows_text width (i + 1) n'
  end.

(** [c] returns [a] in state [st'] when started in [st], with enough
    fuel. *)
Definition returns {A} (c : nat -> M A) (st : io) (a : A) (st' : io) : Prop :=
  exists fuel, c fuel st = Some (a, st').

(** More fuel never changes a result. *)
Definition mono {A} (c : nat -> M A) : Prop :=
  forall n m st r, (n <= m)%nat -> c n st = Some r -> c m st = Some r.

Section Attempts.
Context {T : Type} `{E : Extractable T} (prompt : string).
Variables (bad : T -> bool) (complaint : ostream).

(** The attempts that lead from [st] to a returned value: any number of
    extraction failures and rejected values, then an accepted value. *)
Inductive attempts : io -> T -> io -> Prop :=
| accepted st v s :
    extract (cin st) = (Some v, s) -> bad v = false ->
    attempts st v (mkIO s (cout st ++ [OStr prompt])%list)
| parse_failure st s v st' :
    extract (T:=T) (cin st) = (None, s) ->
    attempts (mkIO (ignore_line s)
                (cout st ++ [OStr prompt; OStr parse_error])%list) v st' ->
    attempts st v st'
| out_of_range st w s v st' :
    extract (cin st) = (Some w, s) -> bad w = true ->
    attempts (mkIO s (cout st ++ OStr prompt :: complaint)%list) v st' ->
    attempts st v st'.

End Attempts.

Definition bad_choice (min max choice : Z) : bool :=
  ((choice <? min) || (choice >? max))%Z.

Definition choice_complaint (min max : Z) : ostream :=
  [ OStr "[ERROR] Choice must be "; OInt min; OStr "-"; OInt max;
    OStr (". Try again." ++ nl) ].

Definition bad_value (min max value : double) : bool :=
  dlt value min || dgt value max.

Definition value_complaint (min max : double) : ostream :=
  [ OStr "[ERROR] Value must be between "; ODouble min; OStr " and ";
    ODouble max; OStr (". Try again." ++ nl) ].

Definition text_in (s : string) : istream := list_ascii_of_string s.

(** The reading of the specification: a [line] of input is treated as a
    parse failure when the read prints the error, discards the line whole
    and starts again on the input after it. *)
Definition treated_as_parse_failure (T : Type) `{Extractable T}
  (prompt : string) (line : istream) : Prop :=
  forall n rest out,
    getValidated (T:=T) prompt (S n) (mkIO (line ++ newline :: rest)%list out)
    = getValidated (T:=T) prompt n
        (mkIO rest (out ++ [OStr prompt; OStr parse_error])%list).

Definition spaces (ws : istream) : Prop := Forall (fun c => isspace c = true) ws.
Definition digits (ds : list ascii) : Prop := Forall (fun c => isdigit c = true) ds.

Definition type_y_or_n : string := "[ERROR] Please type 'y' or 'n'." ++ nl.

Definition says_yes (tok : string) : Prop :=
  lowercase tok = "y" \/ lowercase tok = "yes".
Definition says_no (tok : string) : Prop :=
  lowercase tok = "n" \/ lowercase tok = "no".

Definition press_enter : string := nl ++ ">>> Press Enter to continue...".

(** The reading of the specification: exactly one line, newline included,
    is taken from the input. *)
Definition consumes_one_line (before after : istream) : Prop :=
  exists l, ~ In newline l /\ before = (l ++ newline :: after)%list.

(** The reading of the specification: no line of the text is empty. *)
Definition blank_line_free (o : ostream) : Prop :=
  exists t, text_of o = Some t /\ ~ In EmptyString (lines t).

Definition right_label : string := "Right Triangle:" ++ nl.
Definition inverted_label : string := nl ++ "Inverted Triangle:" ++ nl.

Definition main_prompt : string :=
  "Enter choice (1-" ++ string_of_Z Program.size ++ "): ".

Definition main_goodbye : string := "Exiting program... Goodbye!" ++ nl.

(** What [Program::run] prints before its loop. *)
Definition welcome : ostream :=
  [ OStr nl; OStr (string_fill 45 "*"%char); OStr nl;
    OStr ("   WELCOME TO PROGRAMMING ACTIVITY SYSTEM" ++ nl);
    OStr (string_fill 45 "*"%char); OStr nl ].

(** The two messages with which a sub-menu is left. *)
Definition triangle_goodbye : ostream :=
  [ OStr ("Exiting Triangle Activity..." ++ nl);
    OStr ("Successfully Navigated to Main Menu" ++ nl ++ nl) ].

Definition currency_goodbye : ostream :=
  [ OStr ("Exiting Currency Exchange Calculator..." ++ nl);
    OStr ("Successfully Navigated to Main Menu" ++ nl ++ nl) ].



Definition rule : ostream := [OStr (string_fill 45 "-"%char); OStr nl].

Definition banner (title : string) : ostream :=
  [OStr (nl ++ ">>> ===== "); OStr title; OStr (" ===== <<<" ++ nl)].

Definition remark (average : double) : string :=
  if dge average (of_int StudentGradeEvaluator.PASSING_GRADE)
  then "PASADO KA BOI!!" else "BAGSAK KA BOI!!".

(** What the evaluator prints once the four grades are read. *)
Definition evaluation (average : double) : ostream :=
  (rule
   ++ [OStr "Passing grade: "; OInt 80; OStr nl;
       OStr "Your average: "; ODouble average; OStr nl;
       OStr "REMARKS: "]
   ++ banner (remark average)
   ++ rule
   ++ [OStr press_enter])%list.

Definition grade_prompt (name : string) : string := "Enter " ++ name ++ " Grade: ".

(** The evaluator run on the text [input], from an empty output. *)
Definition evaluate (input : string) : option ostream :=
  match StudentGradeEvaluator.run 3 (mkIO (text_in input) []) with
  | Some (_, st) => Some (cout st)
  | None => None
  end.

Definition shows (x : out_item) (o : option ostream) : Prop :=
  exists items, o = Some items /\ In x items.

(** The [double]s of an output, in the order printed. *)
Fixpoint doubles_of (o : ostream) : list double :=
  match o with
  | [] => []
  | ODouble d :: r => d :: doubles_of r
  | _ :: r => doubles_of r
  end.

Definition summary_items (label : string) (amount : double) : ostream :=
  [ OManip (setw 18); OManip left_; OStr label; OStr ": ₱";
    ODouble amount; OStr nl ].

Definition row_items (label : string) (rate converted : double)
  (unit_ : string) : ostream :=
  [ OManip left_; OManip (setw label_w); OStr label;
    OManip left_; OManip (setw rate_w); ODouble rate; OStr "     ";
    ODouble converted; OStr unit_ ].

(** What [displayConversion] prints. *)
Definition conversion_items
  (amountInPHP fee netPHP usd eur jpy aud : double) : ostream :=
  (banner "Conversion Result" ++ rule
   ++ [OManip fixed; OManip (setprecision 2)]
   ++ summary_items "Original Amount" amountInPHP
   ++ summary_items "Transaction Fee" fee
   ++ summary_items "Net Amount" netPHP
   ++ rule
   ++ [ OManip left_; OManip (setw label_w); OStr "Currency";
        OManip left_; OManip (setw rate_w); OStr "Rate (PHP per ₱1)";
        OManip right_; OManip (setw val_w); OStr "Converted"; OStr nl ]
   ++ row_items "USD ($)       " USD_RATE usd (" USD" ++ nl)
   ++ row_items "EUR (€)       " EUR_RATE eur (" EUR" ++ nl)
   ++ row_items "JPY (¥)       " JPY_RATE jpy (" JPY" ++ nl)
   ++ row_items "AUD (A$)      " AUD_RATE aud (" AUD" ++ nl))%list.

Definition fee_notice : string :=
  "A 5% transaction fee will be charged for the exchange." ++ nl.

Definition cancelled : string := "Transaction cancelled." ++ nl.

(** ** For the further properties *)

Definition choice_verdict (min max v : Z) : option Z :=
  if bad_choice min max v then None else Some v.
Definition choice_said (min max v : Z) : ostream :=
  if bad_choice min max v then choice_complaint min max else [].

Definition value_verdict (min max v : double) : option double :=
  if bad_value min max v then None else Some v.
Definition value_said (min max v : double) : ostream :=
  if bad_value min max v then value_complaint min max else [].

Definition answer_verdict (tok : string) : option bool :=
  let input := lowercase tok in
  if (input =? "y") || (input =? "yes") then Some true
  else if (input =? "n") || (input =? "no") then Some false
  else None.
Definition answer_said (tok : string) : ostream :=
  match answer_verdict tok with
  | Some _ => []
  | None => [OStr type_y_or_n]
  end.

(** [c] prints the items [o] and does nothing else. *)
Definition prints (c : M unit) (o : ostream) : Prop :=
  forall st, c st = Some (tt, mkIO (cin st) (cout st ++ o)%list).

(** The states in which a loop starts a turn: [goes_round turn st s] when
    the loop started in [st] is in [s] after some turns, each of which went
    round again. *)
Inductive goes_round (turn : nat -> M (option unit)) : io -> io -> Prop :=
| round_none st : goes_round turn st st
| round_more n st s1 s2 :
    turn n st = Some (None, s1) -> goes_round turn s1 s2 ->
    goes_round turn st s2.

(** A character with which no number starts. *)
Definition starts_no_number (c : ascii) : Prop :=
  isspace c = false /\ isdigit c = false
  /\ Ascii.eqb c "-"%char = false /\ Ascii.eqb c "+"%char = false
  /\ Ascii.eqb c "."%char = false.

(** A line, without its newline, whose first character starts no number. *)
Definition bad_line (l : istream) : Prop :=
  match l with
  | c :: _ => starts_no_number c /\ ~ In newline l
  | [] => False
  end.

(** The lines typed one after the other, each ended by a newline. *)
Fixpoint typed_lines (ls : list istream) : istream :=
  match ls with
  | [] => []
  | l :: r => (l ++ newline :: typed_lines r)%list
  end.

(** [k] times the prompt followed by the parse error. *)
Fixpoint complaints (prompt : string) (k : nat) : ostream :=
  match k with
  | O => []
  | S k' =>
      OStr prompt :: OStr InputValidator.parse_error :: complaints prompt k'
  end.

(** The lines a statement prints from an empty output, when its output is
    text. *)
Definition printed_lines (c : M unit) : option (list string) :=
  match c (mkIO [] []) with
  | Some (_, st) => option_map lines (text_of (cout st))
  | None => None
  end.

Definition is_star (x : out_item) : bool :=
  match x with
  | OStr s => s =? "*"
  | _ => false
  end.

(** The number of stars in an output. *)
Definition stars_in (o : ostream) : nat := List.length (filter is_star o).

(** The part of the format state of [cout] that decides how a [double] is
    written: the float field and the precision.  Both stay as they were set
    until they are set again. *)
Record format := mkFormat { is_fixed : bool; precision : Z }.

Definition default_format : format := mkFormat false 6.

Definition apply_manip (f : format) (x : out_item) : format :=
  match x with
  | OManip fixed => mkFormat true (precision f)
  | OManip (setprecision n) => mkFormat (is_fixed f) n
  | _ => f
  end.

(** The format in force after the items [o], from the format [f]. *)
Definition format_after (f : format) (o : ostream) : format :=
  fold_left apply_manip o f.

(** The [double]s of an output, each with the format in force where it is
    printed. *)
Fixpoint shown_doubles (f : format) (o : ostream) : list (format * double) :=
  match o with
  | [] => []
  | ODouble d :: r => (f, d) :: shown_doubles f r
  | x :: r => shown_doubles (apply_manip f x) r
  end.

(** An item that is no manipulator. *)
Definition plain (x : out_item) : Prop :=
  match x with
  | OManip _ => False
  | _ => True
  end.

(** A computation that appends plain items only. *)
Definition quiet {A} (c : M A) : Prop :=
  forall st a st', c st = Some (a, st') ->
    exists o, cout st' = (cout st ++ o)%list /\ Forall plain o.

Definition rates_items : ostream :=
  (banner "Today's Exchange Rates" ++ rule
   ++ [ OManip fixed; OManip (setprecision 4);
        OStr "USD ($)   : 1 PHP = "; ODouble (ddiv one USD_RATE);
        OStr (" USD" ++ nl);
        OStr "EUR (€)   : 1 PHP = "; ODouble (ddiv one EUR_RATE);
        OStr (" EUR" ++ nl);
        OStr "JPY (¥)   : 1 PHP = "; ODouble (ddiv one JPY_RATE);
        OStr (" JPY" ++ nl);
        OStr "AUD (A$)  : 1 PHP = "; ODouble (ddiv one AUD_RATE);
        OStr (" AUD" ++ nl) ]
   ++ rule
   ++ [ OManip (setprecision 0); OStr "Transaction Fee"; OStr ": ";
        ODouble (dmul TRANSACTION_FEE_RATE (of_int 100)); OStr ("%" ++ nl);
        OStr "Minimum Transaction"; OStr (": ₱100" ++ nl);
        OStr "Maximum Transaction"; OStr (": ₱100,000" ++ nl) ]
   ++ rule)%list.

Definition is_finite (d : double) : bool :=
  match d with
  | S754_zero _ | S754_finite _ _ _ => true
  | S754_infinity _ | S754_nan => false
  end.

(** The stream does not go on with a digit. *)
Definition no_digit_next (s : istream) : Prop :=
  match s with
  | c :: _ => isdigit c = false
  | [] => True
  end.

End Vocabulary.

(** * Properties *)

(** ** Texts and lines *)

Lemma string_app_assoc (a b c : string) : (a ++ b) ++ c = a ++ (b ++ c).
Proof. induction a as [|x a IH]; simpl; [reflexivity|]. now rewrite IH. Qed.

Lemma text_of_app (a b : ostream) (ta tb : string) :
  text_of a = Some ta -> text_of b = Some tb ->
  text_of (a ++ b)%list = Some (ta ++ tb).
Proof.
  revert ta. induction a as [|x a IH]; simpl; intros ta Ha Hb.
  - injection Ha as <-. exact Hb.
  - destruct (item_text x) as [tx|]; [|discriminate].
    destruct (text_of a) as [ta'|]; [|discriminate].
    injection Ha as <-. rewrite (IH ta' eq_refl Hb).
    now rewrite string_app_assoc.
Qed.

Lemma text_of_stars (n : nat) :
  text_of (repeat star n) = Some (string_fill n "*"%char).
Proof.
  induction n as [|n IH]; simpl; [reflexivity|].
  now rewrite IH.
Qed.

Lemma string_fill_snoc (n : nat) (c : ascii) :
  string_fill n c ++ String c EmptyString = string_fill (S n) c.
Proof.
  induction n as [|n IH]; simpl; [reflexivity|].
  f_equal. exact IH.
Qed.

(** A run of stars closed by a newline is one line. *)
Lemma lines_from_stars (n k : nat) (rest : string) :
  lines_from (string_fill k "*"%char) (string_fill n "*"%char ++ nl ++ rest)
  = string_fill (k + n) "*"%char :: lines rest.
Proof.
  revert k. induction n as [|n IH]; intro k; simpl.
  - now rewrite Nat.add_0_r.
  - rewrite string_fill_snoc, IH. f_equal. f_equal. lia.
Qed.

Lemma lines_star_row (n : nat) (rest : string) :
  lines (string_fill n "*"%char ++ nl ++ rest)
  = string_fill n "*"%char :: lines rest.
Proof. exact (lines_from_stars n 0 rest). Qed.

(** ** The triangles *)

Module TriangleFacts.
Import TriangleLoopActivity.

(** Rewrites with the hypothesis on the next turn of a loop. *)
Ltac use_loop_IH :=
  match goal with
  | IH : _ = (_ ++ _)%list |- _ => rewrite IH; clear IH
  end.

Lemma stars_up_spec (j i : Z) (o : ostream) :
  stars_up j i o = (o ++ repeat star (Z.to_nat (i + 1 - j)))%list.
Proof.
  funelim (stars_up j i o).
  - use_loop_IH. rewrite <- app_assoc. f_equal.
    replace (Z.to_nat (i + 1 - j)) with (S (Z.to_nat (i + 1 - (j + 1))))
      by lia.
    reflexivity.
  - replace (Z.to_nat (i + 1 - j)) with O by lia.
    simpl. now rewrite app_nil_r.
Qed.

Lemma stars_down_spec (j i : Z) (o : ostream) :
  stars_down j i o = (o ++ repeat star (Z.to_nat (j - i)))%list.
Proof.
  funelim (stars_down j i o).
  - use_loop_IH. rewrite <- app_assoc. f_equal.
    replace (Z.to_nat (j - i)) with (S (Z.to_nat (j - 1 - i))) by lia.
    reflexivity.
  - replace (Z.to_nat (j - i)) with O by lia.
    simpl. now rewrite app_nil_r.
Qed.

Lemma right_rows_spec (i height : Z) (o : ostream) :
  right_rows i height o
  = (o ++ rows (fun k => Z.to_nat (k + 1)) i (Z.to_nat (height - i)))%list.
Proof.
  funelim (right_rows i height o).
  - use_loop_IH. rewrite stars_up_spec.
    replace (Z.to_nat (height - i)) with (S (Z.to_nat (height - (i + 1))))
      by lia.
    simpl. rewrite <- !app_assoc. simpl.
    now replace (i + 1 - 0) with (i + 1) by lia.
  - replace (Z.to_nat (height - i)) with O by lia.
    simpl. now rewrite app_nil_r.
Qed.

Lemma inverted_rows_spec (i height : Z) (o : ostream) :
  inverted_rows i height o
  = (o ++ rows (fun k => Z.to_nat (height - k)) i (Z.to_nat (height - i)))%list.
Proof.
  funelim (inverted_rows i height o).
  - replace (Z.to_nat (height - i)) with (S (Z.to_nat (height - (i + 1))))
      by lia.
    use_loop_IH. rewrite stars_down_spec.
    cbn [rows]. now rewrite <- !app_assoc.
  - replace (Z.to_nat (height - i)) with O by lia.
    simpl. now rewrite app_nil_r.
Qed.

Lemma text_of_rows width i n :
  text_of (rows width i n) = Some (rows_text width i n).
Proof.
  revert i. induction n as [|n IH]; intro i; simpl; [reflexivity|].
  apply text_of_app; [apply text_of_stars|].
  simpl. now rewrite IH.
Qed.

Lemma lines_rows_text width i n :
  lines (rows_text width i n)
  = map (fun k => string_fill (width (i + Z.of_nat k)) "*"%char) (seq 0 n).
Proof.
  revert i. induction n as [|n IH]; intro i; [reflexivity|].
  cbn [rows_text]. rewrite lines_star_row, IH. cbn [seq map].
  rewrite Z.add_0_r. f_equal.
  rewrite <- seq_shift, map_map. apply map_ext. intro k.
  do 2 f_equal. lia.
Qed.

End TriangleFacts.

(** ** Loops and fuel *)

Lemma mono_const {A} (c : M A) : mono (fun _ => c).
Proof. intros n m st r _ H. exact H. Qed.

Lemma mono_bind {A B} (c : nat -> M A) (k : nat -> A -> M B) :
  mono c -> (forall a, mono (fun n => k n a)) ->
  mono (fun n => bind (c n) (k n)).
Proof.
  intros Hc Hk n m st r Hle. unfold bind.
  destruct (c n st) as [[a st1]|] eqn:E; [|discriminate].
  rewrite (Hc n m st (a, st1) Hle E). apply (Hk a n m st1 r Hle).
Qed.

Lemma mono_loop {A} (body : nat -> M (option A)) :
  mono body -> mono (loop body).
Proof.
  intros Hb n. induction n as [|n IH]; intros m st r Hle; [discriminate|].
  destruct m as [|m]; [lia|]. simpl. unfold bind.
  destruct (body n st) as [[o st1]|] eqn:E; [|discriminate].
  rewrite (Hb n m st (o, st1) ltac:(lia) E).
  destruct o as [a|]; [trivial|]. apply IH. lia.
Qed.

Lemma returns_unique {A} (c : nat -> M A) st a1 st1 a2 st2 :
  mono c -> returns c st a1 st1 -> returns c st a2 st2 ->
  a1 = a2 /\ st1 = st2.
Proof.
  intros Hc [n Hn] [m Hm].
  pose proof (Hc n (Nat.max n m) st _ (Nat.le_max_l n m) Hn) as H1.
  pose proof (Hc m (Nat.max n m) st _ (Nat.le_max_r n m) Hm) as H2.
  rewrite H1 in H2. injection H2 as -> ->. split; reflexivity.
Qed.

Lemma bind_run {A B} (c : M A) (k : A -> M B) st a st' :
  c st = Some (a, st') -> bind c k st = k a st'.
Proof. intro H. unfold bind. now rewrite H. Qed.


Lemma bind_inv {A B} (c : M A) (k : A -> M B) st r :
  bind c k st = Some r ->
  exists a st', c st = Some (a, st') /\ k a st' = Some r.
Proof.
  unfold bind. destruct (c st) as [[a st']|]; [|discriminate].
  intro H. now exists a, st'.
Qed.

(** One turn of a loop. *)
Lemma loop_turn {A} (body : nat -> M (option A)) (n : nat) (st : io) :
  loop body (S n) st =
  match body n st with
  | Some (Some a, st') => Some (a, st')
  | Some (None, st') => loop body n st'
  | None => None
  end.
Proof.
  simpl. unfold bind. destruct (body n st) as [[[a|] st']|]; reflexivity.
Qed.

(** ** The validated reads *)

Module ValidatorFacts.
Import InputValidator.

Section Read.
Context {T : Type} `{E : Extractable T} (prompt : string).

(** A successful extraction ends the read: the prompt is the only output. *)
Lemma getValidated_ok n st (v : T) s :
  extract (cin st) = (Some v, s) ->
  getValidated prompt (S n) st
  = Some (v, mkIO s (cout st ++ [OStr prompt])%list).
Proof.
  intro H. unfold getValidated. rewrite loop_turn.
  unfold bind, print_str, print, cin_extract, leave, ret. simpl.
  now rewrite H.
Qed.

(** A failed extraction prints the error, drops the rest of the line and
    reads again. *)
Lemma getValidated_fail n st s :
  extract (T:=T) (cin st) = (None, s) ->
  getValidated (T:=T) prompt (S n) st
  = getValidated prompt n
      (mkIO (ignore_line s) (cout st ++ [OStr prompt; OStr parse_error])%list).
Proof.
  intro H. unfold getValidated. rewrite loop_turn.
  unfold bind, print_str, print, cin_extract, on_cin, again, ret. simpl.
  rewrite H. simpl. now rewrite <- app_assoc.
Qed.

(** At the end of the input, when the extraction fails there, the read
    never returns. *)
Lemma getValidated_end n out :
  extract (T:=T) [] = (None, []) ->
  getValidated (T:=T) prompt n (mkIO [] out) = None.
Proof.
  intro Ex. revert out. induction n as [|n IH]; intro out; [reflexivity|].
  rewrite (getValidated_fail n (mkIO [] out) [] Ex). apply IH.
Qed.

Lemma getValidated_mono : mono (getValidated (T:=T) prompt).
Proof. apply mono_loop, mono_const. Qed.

(** Whatever is read was extracted from the stream. *)
Lemma getValidated_extracted n st (v : T) st' :
  getValidated prompt n st = Some (v, st') ->
  exists st0 s, extract (cin st0) = (Some v, s)
                /\ st' = mkIO s (cout st0 ++ [OStr prompt])%list.
Proof.
  revert st. induction n as [|n IH]; intros st H; [discriminate|].
  destruct (extract (T:=T) (cin st)) as [[w|] s] eqn:Ex.
  - rewrite (getValidated_ok n st w s Ex) in H. injection H as <- <-.
    now exists st, s.
  - rewrite (getValidated_fail n st s Ex) in H. now apply IH in H.
Qed.

End Read.

Lemma getValidated_int_end prompt n out :
  getValidated (T:=Z) prompt n (mkIO [] out) = None.
Proof. now apply getValidated_end. Qed.

Lemma getValidated_double_end prompt n out :
  getValidated (T:=double) prompt n (mkIO [] out) = None.
Proof. now apply getValidated_end. Qed.

Lemma getValidated_string_end prompt n out :
  getValidated (T:=string) prompt n (mkIO [] out) = None.
Proof. now apply getValidated_end. Qed.

(** *** Reads that are checked against a range

    [getValidatedChoice] and [getValidatedDouble] are the same loop around
    [getValidated]: a value that is [bad] is answered with a [complaint] and
    read again. *)
Section Checked.
Context {T : Type} `{E : Extractable T} (prompt : string).
Variables (bad : T -> bool) (complaint : ostream).

Lemma attempts_good st v st' : attempts prompt bad complaint st v st' -> bad v = false.
Proof. induction 1; auto. Qed.

Lemma attempts_extracted st v st' :
  attempts prompt bad complaint st v st' -> exists st0 s, extract (cin st0) = (Some v, s).
Proof. induction 1; eauto. Qed.

Variable body : nat -> M (option T).
Hypothesis body_spec : forall fuel st,
  body fuel st =
  match getValidated prompt fuel st with
  | Some (v, st1) =>
      if bad v then Some (None, mkIO (cin st1) (cout st1 ++ complaint)%list)
      else Some (Some v, st1)
  | None => None
  end.

Lemma checked_body_mono : mono body.
Proof.
  intros n m st r Hle. rewrite !body_spec.
  destruct (getValidated prompt n st) as [[w st1]|] eqn:G; [|discriminate].
  now rewrite (getValidated_mono prompt n m st _ Hle G).
Qed.

Lemma checked_mono : mono (loop body).
Proof. apply mono_loop, checked_body_mono. Qed.

(** The failed extractions inside one call of [getValidated]. *)
Lemma getValidated_attempts n st w st1 v st' :
  getValidated prompt n st = Some (w, st1) ->
  (forall st0 s, extract (cin st0) = (Some w, s) ->
                 st1 = mkIO s (cout st0 ++ [OStr prompt])%list ->
                 attempts prompt bad complaint st0 v st') ->
  attempts prompt bad complaint st v st'.
Proof.
  revert st. induction n as [|n IH]; intros st G K; [discriminate|].
  destruct (extract (T:=T) (cin st)) as [[u|] s] eqn:Ex.
  - rewrite (getValidated_ok prompt n st u s Ex) in G. injection G as <- <-.
    now apply (K st s).
  - rewrite (getValidated_fail prompt n st s Ex) in G.
    apply (parse_failure prompt bad complaint st s v st' Ex). now apply IH.
Qed.

Lemma checked_attempts n st v st' :
  loop body n st = Some (v, st') -> attempts prompt bad complaint st v st'.
Proof.
  revert st. induction n as [|n IH]; intros st H; [discriminate|].
  rewrite loop_turn, body_spec in H.
  destruct (getValidated prompt n st) as [[w st1]|] eqn:G; [|discriminate].
  destruct (bad w) eqn:B.
  - apply IH in H. apply (getValidated_attempts n st w st1 v st' G).
    intros st0 s Ex ->. apply (out_of_range prompt bad complaint st0 w s v st' Ex B).
    simpl in H. now rewrite <- app_assoc in H.
  - injection H as <- <-. apply (getValidated_attempts n st w st1 w st1 G).
    intros st0 s Ex ->. now apply accepted.
Qed.

Lemma attempts_checked st v st' :
  attempts prompt bad complaint st v st' -> returns (loop body) st v st'.
Proof.
  induction 1 as [st v s Ex B | st s v st' Ex _ [f IH] | st w s v st' Ex B _ [f IH]].
  - exists 2%nat. rewrite loop_turn, body_spec.
    now rewrite (getValidated_ok prompt 0 st v s Ex), B.
  - destruct f as [|n]; [discriminate|]. exists (S (S n)).
    rewrite loop_turn, body_spec in IH. rewrite loop_turn, body_spec.
    rewrite (getValidated_fail prompt n st s Ex).
    destruct (getValidated prompt n _) as [[w st1]|]; [|discriminate].
    destruct (bad w); [|exact IH].
    apply (checked_mono n (S n)); [lia | exact IH].
  - exists (S (S f)). rewrite loop_turn, body_spec.
    rewrite (getValidated_ok prompt f st w s Ex), B. simpl.
    rewrite <- app_assoc. apply (checked_mono f (S f)); [lia | exact IH].
Qed.

End Checked.

(** *** [getValidatedChoice] *)

Lemma getValidatedChoice_body prompt min max fuel st :
  (choice <- getValidated prompt fuel ;;
   if bad_choice min max choice then
     print_str "[ERROR] Choice must be " ;;
     print (OInt min) ;;
     print_str "-" ;;
     print (OInt max) ;;
     print_str (". Try again." ++ nl) ;;
     again
   else leave choice) st =
  match getValidated prompt fuel st with
  | Some (v, st1) =>
      if bad_choice min max v
      then Some (None, mkIO (cin st1) (cout st1 ++ choice_complaint min max)%list)
      else Some (Some v, st1)
  | None => None
  end.
Proof.
  unfold bind. destruct (getValidated prompt fuel st) as [[v st1]|]; [|reflexivity].
  destruct (bad_choice min max v); [|reflexivity].
  unfold print_str, print, again, ret, choice_complaint. simpl.
  now rewrite <- !app_assoc.
Qed.

Lemma extract_int_in_int s v s' :
  extract_int s = (Some v, s') -> in_int v = true.
Proof.
  unfold extract_int. destruct (take_sign (skipws s)) as [neg s1].
  destruct (span_digits s1) as [[|d ds] s2]; [discriminate|].
  destruct (in_int _) eqn:R; [|discriminate].
  intro H. injection H as <- _. exact R.
Qed.

(** *** [getValidatedDouble] *)

Lemma getValidatedDouble_body prompt min max fuel st :
  (value <- getValidated prompt fuel ;;
   if bad_value min max value then
     print_str "[ERROR] Value must be between " ;;
     print (ODouble min) ;;
     print_str " and " ;;
     print (ODouble max) ;;
     print_str (". Try again." ++ nl) ;;
     again
   else leave value) st =
  match getValidated prompt fuel st with
  | Some (v, st1) =>
      if bad_value min max v
      then Some (None, mkIO (cin st1) (cout st1 ++ value_complaint min max)%list)
      else Some (Some v, st1)
  | None => None
  end.
Proof.
  unfold bind. destruct (getValidated prompt fuel st) as [[v st1]|]; [|reflexivity].
  destruct (bad_value min max v); [|reflexivity].
  unfold print_str, print, again, ret, value_complaint. simpl.
  now rewrite <- !app_assoc.
Qed.

End ValidatorFacts.

(** ** Doubles that are read are numbers *)

Module DoubleFacts.

Lemma iter_pos_inv {A} (P : A -> Prop) (f : A -> A) :
  (forall x, P x -> P (f x)) -> forall p x, P x -> P (iter_pos f p x).
Proof.
  intros Hf p. induction p as [p IH|p IH|]; intros x Hx; simpl; auto.
Qed.

Lemma shr_1_nonneg mrs : 0 <= shr_m mrs -> 0 <= shr_m (shr_1 mrs).
Proof.
  destruct mrs as [m r s]. simpl.
  destruct m as [|[p|p|]|[p|p|]]; simpl; lia.
Qed.

Lemma shr_nonneg mrs e n :
  0 <= shr_m mrs -> 0 <= shr_m (fst (shr mrs e n)).
Proof.
  intro H. destruct n as [|p|p]; simpl; trivial.
  apply (iter_pos_inv (fun x => 0 <= shr_m x)); [apply shr_1_nonneg | exact H].
Qed.

Lemma shr_fexp_nonneg m e l :
  0 <= m -> 0 <= shr_m (fst (shr_fexp prec emax m e l)).
Proof.
  intro H. unfold shr_fexp. apply shr_nonneg. now destruct l as [|[| |]].
Qed.

Lemma round_nearest_even_nonneg m l : 0 <= m -> 0 <= round_nearest_even m l.
Proof.
  intro H. destruct l as [|[| |]]; simpl; try lia.
  destruct (Z.even m); lia.
Qed.

Lemma binary_round_aux_not_nan sx mx ex lx :
  0 <= mx -> binary_round_aux prec emax sx mx ex lx <> S754_nan.
Proof.
  intro H. unfold binary_round_aux.
  pose proof (shr_fexp_nonneg mx ex lx H) as H1.
  destruct (shr_fexp prec emax mx ex lx) as [mrs' e']. simpl in H1.
  pose proof (shr_fexp_nonneg _ e' loc_Exact
                (round_nearest_even_nonneg _ (loc_of_shr_record mrs') H1)) as H2.
  destruct (shr_fexp prec emax _ e' loc_Exact) as [mrs'' e'']. simpl in H2.
  destruct (shr_m mrs'') as [|m|m]; [discriminate | | lia].
  destruct (e'' <=? emax - prec)%Z; discriminate.
Qed.

Lemma of_decimal_not_nan neg m e : of_decimal neg m e <> S754_nan.
Proof.
  unfold of_decimal. destruct m as [|p|p]; try discriminate.
  destruct e as [|k|k].
  - unfold binary_round. destruct (shl_align _ _ _) as [mz ez].
    now apply binary_round_aux_not_nan.
  - unfold binary_round. destruct (shl_align _ _ _) as [mz ez].
    now apply binary_round_aux_not_nan.
  - unfold SFdiv_core_binary.
    set (m' := match _ with Z0 => Z.pos p | Zpos _ => _ | Zneg _ => 0 end).
    assert (Hm : 0 <= m').
    { subst m'. destruct (_ - _) as [|q|q]; try lia.
      apply Z.shiftl_nonneg. lia. }
    pose proof (Z.div_pos m' (Z.pow_pos 10 k) Hm) as Hq.
    unfold Z.div in Hq.
    destruct (Z.div_eucl m' (Z.pow_pos 10 k)) as [q r].
    apply binary_round_aux_not_nan. apply Hq.
    rewrite Z.pow_pos_fold. apply Z.pow_pos_nonneg; lia.
Qed.

Lemma extract_double_not_nan s v s' :
  extract_double s = (Some v, s') -> v <> S754_nan.
Proof.
  unfold extract_double. destruct (take_sign (skipws s)) as [neg s1].
  destruct (span_digits s1) as [ip s2].
  destruct (match s2 with
            | [] => ([], [])
            | c :: r => if Ascii.eqb c "."%char then span_digits r else ([], s2)
            end) as [fp s3].
  destruct (ip ++ fp)%list as [|d ds]; [discriminate|].
  destruct (take_exponent s3) as [[[e|]|] s4]; try discriminate;
    destruct (is_infinity _); try discriminate;
    intro H; injection H as <- _; apply of_decimal_not_nan.
Qed.

Lemma SFcompare_numbers x y :
  x <> S754_nan -> y <> S754_nan -> SFcompare x y <> None.
Proof.
  intros Hx Hy. destruct x as [| | |sx mx ex], y as [| | |sy my ey];
    simpl; try discriminate; try contradiction.
  all: try (destruct s; discriminate).
Qed.

Lemma dle_numbers x y : dle x y = true -> x <> S754_nan /\ y <> S754_nan.
Proof.
  unfold dle. destruct x, y; simpl; try discriminate; split; discriminate.
Qed.

(** Within the bounds: neither below [min] nor above [max]. *)
Lemma within_bounds min max v :
  dle min max = true -> v <> S754_nan ->
  dlt v min || dgt v max = false ->
  dge v min = true /\ dle v max = true.
Proof.
  intros Hb Hv H. apply dle_numbers in Hb as [Hmin Hmax].
  apply orb_false_iff in H as [H1 H2].
  pose proof (SFcompare_numbers v min Hv Hmin) as C1.
  pose proof (SFcompare_numbers v max Hv Hmax) as C2.
  unfold dlt, dgt, dge, dle in *.
  destruct (SFcompare v min) as [[| |]|]; try discriminate; try contradiction;
    destruct (SFcompare v max) as [[| |]|]; try discriminate; try contradiction;
    split; reflexivity.
Qed.

End DoubleFacts.

(** ** Range-checked reads *)

Section RangeChecked.
Import InputValidator ValidatorFacts.

Lemma getValidatedChoice_attempts prompt min max st v st' :
  returns (getValidatedChoice prompt min max) st v st'
  <-> attempts prompt (bad_choice min max) (choice_complaint min max) st v st'.
Proof.
  split.
  - intros [n H]. revert H.
    apply (checked_attempts prompt _ _ _ (getValidatedChoice_body prompt min max)).
  - apply (attempts_checked prompt _ _ _ (getValidatedChoice_body prompt min max)).
Qed.

Lemma getValidatedDouble_attempts prompt min max st v st' :
  returns (getValidatedDouble prompt min max) st v st'
  <-> attempts prompt (bad_value min max) (value_complaint min max) st v st'.
Proof.
  split.
  - intros [n H]. revert H.
    apply (checked_attempts prompt _ _ _ (getValidatedDouble_body prompt min max)).
  - apply (attempts_checked prompt _ _ _ (getValidatedDouble_body prompt min max)).
Qed.

Lemma getValidatedChoice_mono prompt min max :
  mono (getValidatedChoice prompt min max).
Proof.
  apply (checked_mono prompt _ _ _ (getValidatedChoice_body prompt min max)).
Qed.

Lemma getValidatedDouble_mono prompt min max :
  mono (getValidatedDouble prompt min max).
Proof.
  apply (checked_mono prompt _ _ _ (getValidatedDouble_body prompt min max)).
Qed.

Lemma getValidatedChoice_range prompt min max n st v st' :
  getValidatedChoice prompt min max n st = Some (v, st') ->
  (min <= v <= max)%Z /\ in_int v = true.
Proof.
  intro H.
  assert (A : attempts prompt (bad_choice min max) (choice_complaint min max)
                st v st')
    by (apply getValidatedChoice_attempts; now exists n).
  split.
  - apply attempts_good in A. unfold bad_choice in A.
    apply orb_false_iff in A as [A1 A2]. lia.
  - apply attempts_extracted in A as (st0 & s & Ex).
    exact (extract_int_in_int _ _ _ Ex).
Qed.

Lemma getValidatedDouble_range prompt min max n st v st' :
  dle min max = true ->
  getValidatedDouble prompt min max n st = Some (v, st') ->
  dge v min = true /\ dle v max = true.
Proof.
  intros Hb H.
  assert (A : attempts prompt (bad_value min max) (value_complaint min max)
                st v st')
    by (apply getValidatedDouble_attempts; now exists n).
  apply DoubleFacts.within_bounds; trivial.
  - apply attempts_extracted in A as (st0 & s & Ex).
    exact (DoubleFacts.extract_double_not_nan _ _ _ Ex).
  - exact (attempts_good _ _ _ _ _ _ A).
Qed.

(** C1.  Whatever [getValidatedChoice] returns for bounds [min <= max] is an
    [int] in [[min, max]], and whatever [getValidatedDouble] returns is a
    number in [[min, max]].  Each returns exactly after a series of attempts
    in which an extraction failure is answered with the parse error and a
    value out of range with the range complaint, the read being repeated
    either way; the range complaint is not the parse error. *)
Theorem range_checked_reads (prompt : string) (st : io) :
  (forall (min max v : Z) (st' : io),
      (min <= max)%Z ->
      (returns (getValidatedChoice prompt min max) st v st'
       <-> attempts prompt (bad_choice min max) (choice_complaint min max)
             st v st')
      /\ (returns (getValidatedChoice prompt min max) st v st' ->
          (min <= v <= max)%Z /\ in_int v = true))
  /\ (forall (min max v : double) (st' : io),
      dle min max = true ->
      (returns (getValidatedDouble prompt min max) st v st'
       <-> attempts prompt (bad_value min max) (value_complaint min max)
             st v st')
      /\ (returns (getValidatedDouble prompt min max) st v st' ->
          dge v min = true /\ dle v max = true))
  /\ (forall min max : Z, ~ In (OStr parse_error) (choice_complaint min max))
  /\ (forall min max : double, ~ In (OStr parse_error) (value_complaint min max)).
Proof.
  split; [|split; [|split]].
  - intros min max v st' _. split; [apply getValidatedChoice_attempts|].
    intros [n Hn]. exact (getValidatedChoice_range _ _ _ _ _ _ _ Hn).
  - intros min max v st' Hb. split; [apply getValidatedDouble_attempts|].
    intros [n Hn]. exact (getValidatedDouble_range _ _ _ _ _ _ _ Hb Hn).
  - intros min max [H|[H|[H|[H|[H|[]]]]]]; discriminate H.
  - intros min max [H|[H|[H|[H|[H|[]]]]]]; discriminate H.
Qed.

End RangeChecked.

Lemma range_checked_reads_witness :
  let st := mkIO (text_in ("abc" ++ nl ++ "9" ++ nl ++ "3" ++ nl)) [] in
  let st' :=
    mkIO (text_in nl)
      ([OStr "> "; OStr InputValidator.parse_error; OStr "> "]
       ++ choice_complaint 1 5 ++ [OStr "> "])%list in
  ((1 <= 5)%Z
   /\ returns (InputValidator.getValidatedChoice "> " 1 5) st 3 st'
   /\ (1 <= 3 <= 5)%Z /\ in_int 3 = true)
  /\
  let dst := mkIO (text_in ("x" ++ nl ++ "150" ++ nl ++ "80.5" ++ nl)) [] in
  let dst' :=
    mkIO (text_in nl)
      ([OStr "> "; OStr InputValidator.parse_error; OStr "> "]
       ++ value_complaint (of_int 0) (of_int 100)
       ++ [OStr "> "])%list in
  let v := of_decimal false 805 (-1) in
  (dle (of_int 0) (of_int 100) = true
   /\ returns (InputValidator.getValidatedDouble "> " (of_int 0) (of_int 100))
        dst v dst'
   /\ dge v (of_int 0) = true /\ dle v (of_int 100) = true).
Proof.
  intros st st'. split.
  - assert (R : returns (InputValidator.getValidatedChoice "> " 1 5) st 3 st')
      by (exists 4%nat; vm_compute; reflexivity).
    assert (B : (1 <= 5)%Z) by lia.
    split; [exact B|]. split; [exact R|].
    exact (proj2 (proj1 (range_checked_reads "> " st) 1 5 3 st' B) R).
  - intros dst dst' v.
    assert (R : returns
                  (InputValidator.getValidatedDouble "> " (of_int 0) (of_int 100))
                  dst v dst')
      by (exists 4%nat; vm_compute; reflexivity).
    assert (B : dle (of_int 0) (of_int 100) = true) by (vm_compute; reflexivity).
    split; [exact B|]. split; [exact R|].
    exact (proj2 (proj1 (proj2 (range_checked_reads "> " dst))
                   (of_int 0) (of_int 100) v dst' B) R).
Defined.

(** ** What [getValidated] takes for a parse failure *)

Section ParseFailure.
Import InputValidator ValidatorFacts.

Lemma skipws_spaces ws s : spaces ws -> skipws (ws ++ s)%list = skipws s.
Proof.
  induction 1 as [|c ws Hc _ IH]; simpl; [reflexivity|]. now rewrite Hc.
Qed.

Lemma getValidated_same_extract {T} `{Extractable T} prompt n st1 st2 :
  extract (T:=T) (cin st1) = extract (cin st2) -> cout st1 = cout st2 ->
  getValidated (T:=T) prompt n st1 = getValidated prompt n st2.
Proof.
  intros Hx Ho. destruct n as [|n]; [reflexivity|].
  destruct (extract (T:=T) (cin st2)) as [[v|] s] eqn:Ex.
  - rewrite (getValidated_ok prompt n st1 v s Hx).
    rewrite (getValidated_ok prompt n st2 v s Ex). now rewrite Ho.
  - rewrite (getValidated_fail prompt n st1 s Hx).
    rewrite (getValidated_fail prompt n st2 s Ex). now rewrite Ho.
Qed.

(** A digit is neither white space nor a sign nor a point. *)
Lemma digit_char d :
  isdigit d = true ->
  isspace d = false /\ Ascii.eqb d "-"%char = false
  /\ Ascii.eqb d "+"%char = false /\ Ascii.eqb d "."%char = false
  /\ is_exp_mark d = false.
Proof.
  destruct d as [[] [] [] [] [] [] [] []]; intro H; try discriminate H;
    repeat split; reflexivity.
Qed.

Lemma span_digits_run ds c rest :
  digits ds -> isdigit c = false ->
  span_digits (ds ++ c :: rest)%list = (ds, c :: rest).
Proof.
  intros Hd Hc. induction Hd as [|d ds Hd _ IH]; simpl.
  - now rewrite Hc.
  - now rewrite Hd, IH.
Qed.

Lemma skipws_token c rest : isspace c = false -> skipws (c :: rest) = c :: rest.
Proof. intro H. simpl. now rewrite H. Qed.

Lemma take_sign_none c rest :
  Ascii.eqb c "-"%char = false -> Ascii.eqb c "+"%char = false ->
  take_sign (c :: rest) = (false, c :: rest).
Proof. intros H1 H2. simpl. now rewrite H1, H2. Qed.

Lemma span_digits_none c rest :
  isdigit c = false -> span_digits (c :: rest) = ([], c :: rest).
Proof. intro H. simpl. now rewrite H. Qed.

Lemma extract_int_no_number c rest :
  isspace c = false -> isdigit c = false ->
  Ascii.eqb c "-"%char = false -> Ascii.eqb c "+"%char = false ->
  extract_int (c :: rest) = (None, c :: rest).
Proof.
  intros Hs Hd Hm Hp. unfold extract_int.
  now rewrite (skipws_token _ _ Hs), (take_sign_none _ _ Hm Hp),
    (span_digits_none _ _ Hd).
Qed.

Lemma extract_double_no_number c rest :
  isspace c = false -> isdigit c = false ->
  Ascii.eqb c "-"%char = false -> Ascii.eqb c "+"%char = false ->
  Ascii.eqb c "."%char = false ->
  extract_double (c :: rest) = (None, c :: rest).
Proof.
  intros Hs Hd Hm Hp Hdot. unfold extract_double.
  rewrite (skipws_token _ _ Hs), (take_sign_none _ _ Hm Hp),
    (span_digits_none _ _ Hd).
  now rewrite Hdot.
Qed.

Lemma extract_int_prefix d ds c rest :
  digits (d :: ds) -> isdigit c = false ->
  in_int (digits_value (d :: ds)) = true ->
  extract_int ((d :: ds) ++ c :: rest)%list
  = (Some (digits_value (d :: ds)), c :: rest).
Proof.
  intros Hd Hc Hr. unfold extract_int.
  destruct (digit_char d (Forall_inv Hd)) as (Hs & Hm & Hp & _).
  cbn [app]. rewrite (skipws_token _ _ Hs), (take_sign_none _ _ Hm Hp).
  change (d :: (ds ++ c :: rest))%list with ((d :: ds) ++ c :: rest)%list.
  rewrite (span_digits_run _ _ _ Hd Hc). now rewrite Hr.
Qed.

Lemma extract_double_prefix d ds c rest :
  digits (d :: ds) -> isdigit c = false ->
  Ascii.eqb c "."%char = false -> is_exp_mark c = false ->
  is_infinity (of_decimal false (digits_value (d :: ds)) 0) = false ->
  extract_double ((d :: ds) ++ c :: rest)%list
  = (Some (of_decimal false (digits_value (d :: ds)) 0), c :: rest).
Proof.
  intros Hd Hc Hdot He Hinf. unfold extract_double.
  destruct (digit_char d (Forall_inv Hd)) as (Hs & Hm & Hp & _).
  cbn [app]. rewrite (skipws_token _ _ Hs), (take_sign_none _ _ Hm Hp).
  change (d :: (ds ++ c :: rest))%list with ((d :: ds) ++ c :: rest)%list.
  rewrite (span_digits_run _ _ _ Hd Hc). rewrite Hdot.
  rewrite app_nil_r. unfold take_exponent. rewrite He.
  cbn [List.length Z.of_nat Z.sub Z.opp Z.add]. now rewrite Hinf.
Qed.

(** C2, as the specification states it, fails: neither a token with trailing
    garbage nor an empty or white-space-only line is treated as a parse
    failure, for [int] or for [double]. *)
Lemma malformed_input_not_parse_failure :
  ~ treated_as_parse_failure Z "> " (text_in "12abc")
  /\ ~ treated_as_parse_failure Z "> " []
  /\ ~ treated_as_parse_failure Z "> " (text_in "  ")
  /\ ~ treated_as_parse_failure double "> " (text_in "12abc")
  /\ ~ treated_as_parse_failure double "> " []
  /\ ~ treated_as_parse_failure double "> " (text_in "  ").
Proof.
  repeat split; intro H; specialize (H 1%nat (text_in ("7" ++ nl)) []);
    vm_compute in H; discriminate H.
Qed.

(** C2, amended.  For a read of an [int] or a [double] by [getValidated]:
    white space in front of a token, empty and white-space-only lines
    included, is skipped without an error; a token that starts no number is
    a parse failure, after which the error is printed, the rest of the line
    is discarded and the read starts again; digits followed by garbage are
    read as the number they spell, and the garbage stays in the stream. *)
Theorem parse_failure_by_extraction
  (prompt : string) (n : nat) (out : ostream) (rest : istream) :
  (forall ws, spaces ws ->
      getValidated (T:=Z) prompt n (mkIO (ws ++ rest)%list out)
      = getValidated prompt n (mkIO rest out)
      /\ getValidated (T:=double) prompt n (mkIO (ws ++ rest)%list out)
         = getValidated prompt n (mkIO rest out))
  /\ (forall c,
      isspace c = false -> isdigit c = false ->
      Ascii.eqb c "-"%char = false -> Ascii.eqb c "+"%char = false ->
      getValidated (T:=Z) prompt (S n) (mkIO (c :: rest) out)
      = getValidated prompt n
          (mkIO (ignore_line (c :: rest))
             (out ++ [OStr prompt; OStr parse_error])%list)
      /\ (Ascii.eqb c "."%char = false ->
          getValidated (T:=double) prompt (S n) (mkIO (c :: rest) out)
          = getValidated prompt n
              (mkIO (ignore_line (c :: rest))
                 (out ++ [OStr prompt; OStr parse_error])%list)))
  /\ (forall d ds c,
      digits (d :: ds) -> isdigit c = false ->
      (in_int (digits_value (d :: ds)) = true ->
       getValidated (T:=Z) prompt (S n)
         (mkIO ((d :: ds) ++ c :: rest)%list out)
       = Some (digits_value (d :: ds),
               mkIO (c :: rest) (out ++ [OStr prompt])%list))
      /\ (Ascii.eqb c "."%char = false -> is_exp_mark c = false ->
          is_infinity (of_decimal false (digits_value (d :: ds)) 0) = false ->
          getValidated (T:=double) prompt (S n)
            (mkIO ((d :: ds) ++ c :: rest)%list out)
          = Some (of_decimal false (digits_value (d :: ds)) 0,
                  mkIO (c :: rest) (out ++ [OStr prompt])%list))).
Proof.
  split; [|split].
  - intros ws Hws. split; apply getValidated_same_extract; trivial; simpl;
      unfold extract, Extractable_int, Extractable_double,
        extract_int, extract_double;
      now rewrite (skipws_spaces _ _ Hws).
  - intros c Hs Hd Hm Hp. split; [|intro Hdot].
    + apply (getValidated_fail (T:=Z)). now apply extract_int_no_number.
    + apply (getValidated_fail (T:=double)). now apply extract_double_no_number.
  - intros d ds c Hd Hc. split.
    + intro Hr. apply (getValidated_ok (T:=Z)). now apply extract_int_prefix.
    + intros Hdot He Hinf. apply (getValidated_ok (T:=double)).
      now apply extract_double_prefix.
Qed.

Lemma parse_failure_by_extraction_witness :
  let rest := text_in ("bc" ++ nl) in
  (spaces (text_in (nl ++ "  " ++ nl))
   /\ getValidated (T:=Z) "> " 3
        (mkIO (text_in (nl ++ "  " ++ nl) ++ rest)%list [])
      = getValidated "> " 3 (mkIO rest []))
  /\ (isspace "a"%char = false /\ isdigit "a"%char = false
      /\ getValidated (T:=Z) "> " 4 (mkIO ("a"%char :: rest) [])
         = getValidated "> " 3
             (mkIO (ignore_line ("a"%char :: rest))
                ([] ++ [OStr "> "; OStr parse_error])%list))
  /\ (digits (text_in "12") /\ isdigit "a"%char = false
      /\ in_int (digits_value (text_in "12")) = true
      /\ getValidated (T:=Z) "> " 4
           (mkIO (text_in "12" ++ "a"%char :: rest)%list [])
         = Some (digits_value (text_in "12"),
                 mkIO ("a"%char :: rest) ([] ++ [OStr "> "])%list)).
Proof.
  intro rest.
  pose proof (parse_failure_by_extraction "> " 3 [] rest) as (W1 & W2 & W3).
  assert (S1 : spaces (text_in (nl ++ "  " ++ nl)))
    by (repeat constructor).
  assert (D1 : digits (text_in "12")) by (repeat constructor).
  split; [|split].
  - split; [exact S1|]. exact (proj1 (W1 _ S1)).
  - split; [reflexivity|]. split; [reflexivity|].
    exact (proj1 (W2 "a"%char eq_refl eq_refl eq_refl eq_refl)).
  - split; [exact D1|]. split; [reflexivity|]. split; [reflexivity|].
    exact (proj1 (W3 "1"%char (text_in "2") "a"%char D1 eq_refl) eq_refl).
Defined.

End ParseFailure.

(** ** Yes or no *)

Section YesNo.
Import InputValidator ValidatorFacts.

(** One turn of the loop of [getValidatedYesNo]. *)
Lemma getValidatedYesNo_turn prompt n st :
  getValidatedYesNo prompt (S n) st =
  match getValidated (prompt ++ " (y/n): ") n st with
  | Some (tok, st1) =>
      let input := lowercase tok in
      if (input =? "y") || (input =? "yes") then Some (true, st1)
      else if (input =? "n") || (input =? "no") then Some (false, st1)
      else getValidatedYesNo prompt n
             (mkIO (cin st1) (cout st1 ++ [OStr type_y_or_n])%list)
  | None => None
  end.
Proof.
  unfold getValidatedYesNo. rewrite loop_turn. unfold bind.
  destruct (getValidated _ n st) as [[tok st1]|]; [|reflexivity].
  cbv zeta.
  destruct ((lowercase tok =? "y") || (lowercase tok =? "yes")); [reflexivity|].
  destruct ((lowercase tok =? "n") || (lowercase tok =? "no")); reflexivity.
Qed.

Lemma says_yes_test tok :
  says_yes tok <-> (lowercase tok =? "y") || (lowercase tok =? "yes") = true.
Proof.
  unfold says_yes. rewrite orb_true_iff, !String.eqb_eq. reflexivity.
Qed.

Lemma says_no_test tok :
  says_no tok <-> (lowercase tok =? "n") || (lowercase tok =? "no") = true.
Proof.
  unfold says_no. rewrite orb_true_iff, !String.eqb_eq. reflexivity.
Qed.

Lemma yes_is_not_no tok : says_yes tok -> ~ says_no tok.
Proof.
  unfold says_yes, says_no. intros [-> | ->] [H | H]; discriminate H.
Qed.

(** A returned answer was typed: it is never a default. *)
Lemma getValidatedYesNo_typed prompt n st b st' :
  getValidatedYesNo prompt n st = Some (b, st') ->
  exists st0 tok s,
    extract_string (cin st0) = (Some tok, s)
    /\ st' = mkIO s (cout st0 ++ [OStr (prompt ++ " (y/n): ")])%list
    /\ (if b then says_yes tok else says_no tok).
Proof.
  revert st. induction n as [|n IH]; intros st H; [discriminate|].
  rewrite getValidatedYesNo_turn in H.
  destruct (getValidated _ n st) as [[tok st1]|] eqn:G; [|discriminate].
  apply getValidated_extracted in G as (st0 & s & Ex & ->).
  cbv zeta in H.
  destruct ((lowercase tok =? "y") || (lowercase tok =? "yes")) eqn:Y.
  - injection H as <- <-. exists st0, tok, s. repeat split; trivial.
    now apply says_yes_test.
  - destruct ((lowercase tok =? "n") || (lowercase tok =? "no")) eqn:N.
    + injection H as <- <-. exists st0, tok, s. repeat split; trivial.
      now apply says_no_test.
    + now apply IH in H.
Qed.

(** C5.  When the next token is [tok], [getValidatedYesNo] returns [true] if
    [tok] in lower case is "y" or "yes", returns [false] if it is "n" or
    "no", and otherwise prints its error and asks again; the three cases
    exclude each other.  Every answer it ever returns comes from a token
    that says so: there is no default. *)
Theorem yes_no_answers
  (prompt : string) (n : nat) (st : io) (tok : string) (s : istream) :
  extract_string (cin st) = (Some tok, s) ->
  let asked := mkIO s (cout st ++ [OStr (prompt ++ " (y/n): ")])%list in
  (says_yes tok -> getValidatedYesNo prompt (S (S n)) st = Some (true, asked))
  /\ (says_no tok ->
      getValidatedYesNo prompt (S (S n)) st = Some (false, asked))
  /\ (~ says_yes tok -> ~ says_no tok ->
      getValidatedYesNo prompt (S (S n)) st
      = getValidatedYesNo prompt (S n)
          (mkIO s (cout asked ++ [OStr type_y_or_n])%list))
  /\ (says_yes tok -> ~ says_no tok)
  /\ (forall m st0 b st',
      getValidatedYesNo prompt m st0 = Some (b, st') ->
      exists st1 tok1 s1,
        extract_string (cin st1) = (Some tok1, s1)
        /\ st' = mkIO s1 (cout st1 ++ [OStr (prompt ++ " (y/n): ")])%list
        /\ (if b then says_yes tok1 else says_no tok1)).
Proof.
  intros Ex asked.
  assert (G : getValidated (prompt ++ " (y/n): ") (S n) st = Some (tok, asked))
    by (apply (getValidated_ok (T:=string)); exact Ex).
  repeat split.
  - intro Y. rewrite getValidatedYesNo_turn, G. cbv zeta.
    apply says_yes_test in Y. now rewrite Y.
  - intro N. rewrite getValidatedYesNo_turn, G. cbv zeta.
    destruct ((lowercase tok =? "y") || (lowercase tok =? "yes")) eqn:Y.
    + apply says_yes_test in Y. now destruct (yes_is_not_no tok Y).
    + apply says_no_test in N. now rewrite N.
  - intros Y N. rewrite getValidatedYesNo_turn, G. cbv zeta.
    destruct ((lowercase tok =? "y") || (lowercase tok =? "yes")) eqn:Y'.
    { now apply says_yes_test in Y'. }
    destruct ((lowercase tok =? "n") || (lowercase tok =? "no")) eqn:N'.
    { now apply says_no_test in N'. }
    reflexivity.
  - apply yes_is_not_no.
  - apply getValidatedYesNo_typed.
Qed.

Lemma yes_no_answers_witness :
  let st := mkIO (text_in ("YeS" ++ nl)) [] in
  extract_string (cin st) = (Some "YeS", text_in nl)
  /\ says_yes "YeS"
  /\ getValidatedYesNo "Proceed?" 2 st
     = Some (true, mkIO (text_in nl) ([] ++ [OStr "Proceed? (y/n): "])%list).
Proof.
  intro st.
  assert (Ex : extract_string (cin st) = (Some "YeS", text_in nl))
    by reflexivity.
  assert (Y : says_yes "YeS") by (right; reflexivity).
  split; [exact Ex|]. split; [exact Y|].
  exact (proj1 (yes_no_answers "Proceed?" 0 st "YeS" (text_in nl) Ex) Y).
Defined.

End YesNo.

(** ** The lines of the triangles *)

Section TriangleLines.
Import TriangleLoopActivity TriangleFacts.

Lemma nth_error_map_seq {A} (f : nat -> A) (n k start : nat) :
  (k < n)%nat -> nth_error (map f (seq start n)) k = Some (f (start + k)%nat).
Proof.
  revert k start. induction n as [|n IH]; intros k start Hk; [lia|].
  destruct k as [|k]; simpl.
  - now rewrite Nat.add_0_r.
  - rewrite IH by lia. do 2 f_equal. lia.
Qed.

(** What a triangle prints is [height] lines of stars. *)
Lemma rows_lines (width : Z -> nat) (h : Z) :
  0 <= h ->
  exists txt,
    text_of (rows width 0 (Z.to_nat h)) = Some txt
    /\ List.length (lines txt) = Z.to_nat h
    /\ forall i, 1 <= i <= h ->
         nth_error (lines txt) (Z.to_nat (i - 1))
         = Some (string_fill (width (i - 1)) "*"%char).
Proof.
  intro Hh. exists (rows_text width 0 (Z.to_nat h)).
  split; [apply text_of_rows|]. rewrite lines_rows_text. split.
  - now rewrite length_map, length_seq.
  - intros i Hi. rewrite nth_error_map_seq by lia.
    do 3 f_equal. lia.
Qed.

(** C6.  For a height [h] from 1 to 20, [displayRightTriangle] prints [h]
    lines, line [i] being [i] stars, and [displayInvertedTriangle] prints
    [h] lines, line [i] being [h - i + 1] stars. *)
Theorem triangles_print_star_lines (h : Z) (st : io) :
  1 <= h <= 20 ->
  (exists o txt,
      displayRightTriangle h st = Some (tt, mkIO (cin st) (cout st ++ o)%list)
      /\ text_of o = Some txt
      /\ List.length (lines txt) = Z.to_nat h
      /\ forall i, 1 <= i <= h ->
           nth_error (lines txt) (Z.to_nat (i - 1))
           = Some (string_fill (Z.to_nat i) "*"%char))
  /\ (exists o txt,
      displayInvertedTriangle h st
      = Some (tt, mkIO (cin st) (cout st ++ o)%list)
      /\ text_of o = Some txt
      /\ List.length (lines txt) = Z.to_nat h
      /\ forall i, 1 <= i <= h ->
           nth_error (lines txt) (Z.to_nat (i - 1))
           = Some (string_fill (Z.to_nat (h - i + 1)) "*"%char)).
Proof.
  intro Hh. split.
  - destruct (rows_lines (fun k => Z.to_nat (k + 1)) h ltac:(lia))
      as (txt & Ht & Hl & Hn).
    exists (rows (fun k => Z.to_nat (k + 1)) 0 (Z.to_nat h)), txt.
    repeat split; trivial.
    + unfold displayRightTriangle, on_cout.
      now rewrite right_rows_spec, Z.sub_0_r.
    + intros i Hi. rewrite (Hn i Hi). do 3 f_equal. lia.
  - destruct (rows_lines (fun k => Z.to_nat (h - k)) h ltac:(lia))
      as (txt & Ht & Hl & Hn).
    exists (rows (fun k => Z.to_nat (h - k)) 0 (Z.to_nat h)), txt.
    repeat split; trivial.
    + unfold displayInvertedTriangle, on_cout.
      now rewrite inverted_rows_spec, Z.sub_0_r.
    + intros i Hi. rewrite (Hn i Hi). do 3 f_equal. lia.
Qed.

Lemma triangles_print_star_lines_witness :
  1 <= 3 <= 20
  /\ (exists o txt,
      displayRightTriangle 3 (mkIO [] [])
      = Some (tt, mkIO [] ([] ++ o)%list)
      /\ text_of o = Some txt
      /\ List.length (lines txt) = 3%nat
      /\ forall i, 1 <= i <= 3 ->
           nth_error (lines txt) (Z.to_nat (i - 1))
           = Some (string_fill (Z.to_nat i) "*"%char))
  /\ (exists o txt,
      displayInvertedTriangle 3 (mkIO [] [])
      = Some (tt, mkIO [] ([] ++ o)%list)
      /\ text_of o = Some txt
      /\ List.length (lines txt) = 3%nat
      /\ forall i, 1 <= i <= 3 ->
           nth_error (lines txt) (Z.to_nat (i - 1))
           = Some (string_fill (Z.to_nat (3 - i + 1)) "*"%char)).
Proof.
  assert (H : 1 <= 3 <= 20) by lia.
  split; [exact H|].
  exact (triangles_print_star_lines 3 (mkIO [] []) H).
Defined.

(** The example of the specification: height 3. *)
Example triangle_height_3 :
  option_map lines (text_of (right_rows 0 3 [])) = Some ["*"; "**"; "***"]
  /\ option_map lines (text_of (inverted_rows 0 3 [])) = Some ["***"; "**"; "*"].
Proof. split; reflexivity. Qed.

End TriangleLines.

(** ** The pause *)

Section Pause.

Lemma pauseBuffer_spec st :
  UI.pauseBuffer st
  = Some (tt, mkIO (get_char (ignore_line (cin st)))
                (cout st ++ [OStr press_enter])%list).
Proof. reflexivity. Qed.

Lemma ignore_line_first l r :
  ~ In newline l -> ignore_line (l ++ newline :: r)%list = r.
Proof.
  induction l as [|c l IH]; simpl; intro H; [reflexivity|].
  destruct (Ascii.eqb_spec c newline) as [->|_]; [tauto|].
  apply IH. tauto.
Qed.

Lemma ignore_line_none l : ~ In newline l -> ignore_line l = [].
Proof.
  induction l as [|c l IH]; simpl; intro H; [reflexivity|].
  destruct (Ascii.eqb_spec c newline) as [->|_]; [tauto|].
  apply IH. tauto.
Qed.

(** C8, as the specification states it, fails: with an empty rest of the
    current line and the line "go" after it, the pause takes the newline
    and the "g"; what it takes is not one line. *)
Lemma pauseBuffer_not_one_line :
  let pending := text_in (nl ++ "go" ++ nl) in
  exists st',
    UI.pauseBuffer (mkIO pending []) = Some (tt, st')
    /\ cin st' = text_in ("o" ++ nl)
    /\ ~ consumes_one_line pending (cin st').
Proof.
  intro pending. eexists. split; [reflexivity|]. split; [reflexivity|].
  intros (l & Hl & H). destruct l as [|c l].
  - discriminate H.
  - injection H as <- _. apply Hl. now left.
Qed.

(** C8, amended.  The pause prints its prompt, discards the input up to and
    including the first newline, and then takes exactly one more character:
    the rest of the current line and the first character of the next. *)
Theorem pauseBuffer_line_and_character (st : io) :
  exists st',
    UI.pauseBuffer st = Some (tt, st')
    /\ cout st' = (cout st ++ [OStr press_enter])%list
    /\ (forall l c r, ~ In newline l ->
          cin st = (l ++ newline :: c :: r)%list -> cin st' = r)
    /\ (forall l, ~ In newline l ->
          cin st = (l ++ [newline])%list -> cin st' = [])
    /\ (~ In newline (cin st) -> cin st' = []).
Proof.
  eexists. split; [apply pauseBuffer_spec|]. split; [reflexivity|]. simpl.
  split; [|split].
  - intros l c r Hl ->. now rewrite ignore_line_first.
  - intros l Hl ->. now rewrite ignore_line_first.
  - intro H. now rewrite ignore_line_none.
Qed.

Lemma pauseBuffer_line_and_character_witness :
  let st := mkIO (text_in ("abc" ++ nl ++ "go" ++ nl)) [] in
  ~ In newline (text_in "abc")
  /\ cin st = (text_in "abc" ++ newline :: "g"%char :: text_in ("o" ++ nl))%list
  /\ exists st',
      UI.pauseBuffer st = Some (tt, st') /\ cin st' = text_in ("o" ++ nl).
Proof.
  intro st.
  assert (Hl : ~ In newline (text_in "abc"))
    by (intros [H|[H|[H|[]]]]; discriminate H).
  split; [exact Hl|]. split; [reflexivity|].
  destruct (pauseBuffer_line_and_character st) as (st' & Hp & _ & Hc & _).
  exists st'. split; [exact Hp|].
  exact (Hc (text_in "abc") "g"%char (text_in ("o" ++ nl)) Hl eq_refl).
Defined.

End Pause.

(** ** Both triangles *)

Section Both.
Import TriangleLoopActivity TriangleFacts.

Lemma displayRightTriangle_spec h st :
  displayRightTriangle h st
  = Some (tt, mkIO (cin st) (cout st ++ right_rows 0 h [])%list).
Proof.
  unfold displayRightTriangle, on_cout.
  now rewrite right_rows_spec, (right_rows_spec 0 h []).
Qed.

Lemma displayInvertedTriangle_spec h st :
  displayInvertedTriangle h st
  = Some (tt, mkIO (cin st) (cout st ++ inverted_rows 0 h [])%list).
Proof.
  unfold displayInvertedTriangle, on_cout.
  now rewrite inverted_rows_spec, (inverted_rows_spec 0 h []).
Qed.

(** C9, as the specification states it, fails: at height 2, what "Both"
    prints between the two triangles is not free of blank lines. *)
Lemma both_label_has_blank_line :
  ~ exists sep st',
      dispatch case_3 2 (mkIO [] []) = Some (tt, st')
      /\ cout st'
         = ([OStr right_label] ++ right_rows 0 2 [] ++ sep
            ++ inverted_rows 0 2 [] ++ [OStr press_enter])%list
      /\ blank_line_free sep.
Proof.
  intros (sep & st' & H & Hc & t & Ht & Hb).
  vm_compute in H. injection H as <-.
  vm_compute in Hc. injection Hc as Hc.
  change (([OStr inverted_label]
           ++ [star; star; OStr nl; star; OStr nl; OStr press_enter])%list
          = (sep ++ [star; star; OStr nl; star; OStr nl; OStr press_enter])%list)
    in Hc.
  apply app_inv_tail in Hc. subst sep.
  injection Ht as <-. apply Hb. now left.
Qed.

(** C9, amended.  For every height, "Both" prints the right triangle, then
    a blank line and the label "Inverted Triangle:", then the inverted
    triangle directly under the label. *)
Theorem both_prints_right_then_inverted (h : Z) (st : io) :
  dispatch case_3 h st
  = Some (tt,
          mkIO (get_char (ignore_line (cin st)))
            (cout st ++ [OStr right_label] ++ right_rows 0 h []
             ++ [OStr inverted_label] ++ inverted_rows 0 h []
             ++ [OStr press_enter])%list)
  /\ displayRightTriangle h (mkIO [] []) = Some (tt, mkIO [] (right_rows 0 h []))
  /\ displayInvertedTriangle h (mkIO [] [])
     = Some (tt, mkIO [] (inverted_rows 0 h []))
  /\ lines inverted_label = [EmptyString; "Inverted Triangle:"].
Proof.
  split; [|split; [|split]].
  - unfold dispatch, bind, print_str, print.
    rewrite displayRightTriangle_spec. cbn [cin cout].
    rewrite displayInvertedTriangle_spec, pauseBuffer_spec. cbn [cin cout].
    do 2 f_equal. now rewrite <- !app_assoc.
  - apply displayRightTriangle_spec.
  - apply displayInvertedTriangle_spec.
  - reflexivity.
Qed.

End Both.

(** ** The menus *)

Section Menus.
Import InputValidator.





(** The three [run]s are their loops. *)
Lemma Program_run_loop fuel st :
  Program.run fuel st
  = loop Program.turn fuel (mkIO (cin st) (cout st ++ welcome)%list).
Proof.
  cbv [Program.run bind print_str print cin cout welcome].
  now rewrite <- !app_assoc.
Qed.

Lemma Triangle_run_loop fuel st :
  TriangleLoopActivity.run fuel st
  = loop TriangleLoopActivity.turn fuel
      (mkIO (cin st) (cout st ++ banner "Triangle Loop Activity")%list).
Proof.
  cbv [TriangleLoopActivity.run UI.header bind print_str print cin cout banner].
  now rewrite <- !app_assoc.
Qed.




(** ** The default labels *)

(** The turns, unfolded once. *)
Lemma Program_turn_eq fuel st :
  Program.turn fuel st
  = bind Program.show_menu (fun _ =>
      bind (getValidatedChoice main_prompt 1 Program.size fuel)
        (fun menuChoice =>
           Program.dispatch (Program.select menuChoice) fuel)) st.
Proof. reflexivity. Qed.

Lemma Triangle_turn_eq fuel st :
  TriangleLoopActivity.turn fuel st
  = bind TriangleLoopActivity.show_menu (fun _ =>
      bind (getValidatedChoice "Enter choice (1-4): " 1 4 fuel)
        (fun menuChoice =>
           if (menuChoice =? 4)%Z then
             TriangleLoopActivity.leave_menu ;; leave tt
           else
             height <- getValidatedChoice "Enter height (1-20): " 1 20 fuel ;;
             print_str nl ;;
             TriangleLoopActivity.dispatch
               (TriangleLoopActivity.select menuChoice) height ;;
             print_str nl ;;
             again)) st.
Proof. reflexivity. Qed.

Lemma Currency_turn_eq fuel st :
  CurrencyExchangeCalculator.turn fuel st
  = bind CurrencyExchangeCalculator.show_menu (fun _ =>
      bind (getValidatedChoice "Enter choice (1-3): " 1 3 fuel)
        (fun menuChoice =>
           if (menuChoice =? 3)%Z then
             CurrencyExchangeCalculator.leave_menu ;; leave tt
           else
             CurrencyExchangeCalculator.dispatch
               (CurrencyExchangeCalculator.select menuChoice) fuel ;;
             again)) st.
Proof. reflexivity. Qed.

(** C10.  The choice that reaches a [switch] is always one of its labels:
    in the main menu a choice from 1 to 5, in the triangle menu and in the
    currency menu a choice that is not the exit choice, which left the loop
    before the [switch].  So a turn of a menu never runs [default]. *)
Theorem default_labels_unreachable (fuel : nat) (st : io) :
  (forall k st',
      getValidatedChoice main_prompt 1 Program.size fuel st = Some (k, st') ->
      Program.select k <> Program.default)
  /\ (forall k st',
      getValidatedChoice "Enter choice (1-4): "
        TriangleLoopActivity.MIN_MENU_OPTION
        TriangleLoopActivity.MAX_MENU_OPTION fuel st = Some (k, st') ->
      (k =? 4)%Z = false ->
      TriangleLoopActivity.select k <> TriangleLoopActivity.default)
  /\ (forall k st',
      getValidatedChoice "Enter choice (1-3): "
        CurrencyExchangeCalculator.MIN_MENU_OPTION
        CurrencyExchangeCalculator.MAN_MENU_OPTION fuel st = Some (k, st') ->
      (k =? 3)%Z = false ->
      CurrencyExchangeCalculator.select k <> CurrencyExchangeCalculator.default)
  /\ (forall r st2,
      Program.turn fuel st = Some (r, st2) ->
      exists k st1,
        Program.select k <> Program.default
        /\ Program.dispatch (Program.select k) fuel st1 = Some (r, st2))
  /\ (forall r st2,
      TriangleLoopActivity.turn fuel st = Some (r, st2) ->
      r = Some tt
      \/ exists k h st1,
           TriangleLoopActivity.select k <> TriangleLoopActivity.default
           /\ (print_str nl ;;
               TriangleLoopActivity.dispatch (TriangleLoopActivity.select k) h ;;
               print_str nl ;; again) st1 = Some (r, st2))
  /\ (forall r st2,
      CurrencyExchangeCalculator.turn fuel st = Some (r, st2) ->
      r = Some tt
      \/ exists k st1,
           CurrencyExchangeCalculator.select k
           <> CurrencyExchangeCalculator.default
           /\ (CurrencyExchangeCalculator.dispatch
                 (CurrencyExchangeCalculator.select k) fuel ;; again) st1
              = Some (r, st2)).
Proof.
  assert (Main : forall st k st',
             getValidatedChoice main_prompt 1 Program.size fuel st
             = Some (k, st') ->
             Program.select k <> Program.default).
  { intros s k st' H. apply getValidatedChoice_range in H as [H _].
    change Program.size with 5 in H.
    assert (K : k = 1 \/ k = 2 \/ k = 3 \/ k = 4 \/ k = 5) by lia.
    destruct K as [->|[->|[->|[->| ->]]]]; discriminate. }
  assert (Tri : forall st k st',
             getValidatedChoice "Enter choice (1-4): " 1 4 fuel st
             = Some (k, st') ->
             (k =? 4)%Z = false ->
             TriangleLoopActivity.select k <> TriangleLoopActivity.default).
  { intros s k st' H E. apply getValidatedChoice_range in H as [H _].
    assert (K : k = 1 \/ k = 2 \/ k = 3) by lia.
    destruct K as [->|[->| ->]]; discriminate. }
  assert (Cur : forall st k st',
             getValidatedChoice "Enter choice (1-3): " 1 3 fuel st
             = Some (k, st') ->
             (k =? 3)%Z = false ->
             CurrencyExchangeCalculator.select k
             <> CurrencyExchangeCalculator.default).
  { intros s k st' H E. apply getValidatedChoice_range in H as [H _].
    assert (K : k = 1 \/ k = 2) by lia.
    destruct K as [->| ->]; discriminate. }
  split; [apply Main|]. split; [apply Tri|]. split; [apply Cur|].
  split; [|split].
  - intros r st2 H. rewrite Program_turn_eq in H.
    apply bind_inv in H as ([] & st0 & _ & H).
    apply bind_inv in H as (k & st1 & Hg & H).
    exists k, st1. split; [exact (Main _ _ _ Hg) | exact H].
  - intros r st2 H. rewrite Triangle_turn_eq in H.
    apply bind_inv in H as ([] & st0 & _ & H).
    apply bind_inv in H as (k & st1 & Hg & H).
    destruct (k =? 4)%Z eqn:E.
    + left. apply bind_inv in H as ([] & st3 & _ & H).
      now injection H as <- _.
    + right. apply bind_inv in H as (h & st3 & _ & H).
      exists k, h, st3. split; [exact (Tri _ _ _ Hg E) | exact H].
  - intros r st2 H. rewrite Currency_turn_eq in H.
    apply bind_inv in H as ([] & st0 & _ & H).
    apply bind_inv in H as (k & st1 & Hg & H).
    destruct (k =? 3)%Z eqn:E.
    + left. apply bind_inv in H as ([] & st3 & _ & H).
      now injection H as <- _.
    + right. exists k, st1. split; [exact (Cur _ _ _ Hg E) | exact H].
Qed.

Lemma default_labels_unreachable_witness :
  let st := mkIO (text_in ("9" ++ nl ++ "2" ++ nl)) [] in
  exists st',
    getValidatedChoice "Enter choice (1-4): "
      TriangleLoopActivity.MIN_MENU_OPTION
      TriangleLoopActivity.MAX_MENU_OPTION 3 st = Some (2, st')
    /\ (2 =? 4)%Z = false
    /\ TriangleLoopActivity.select 2 <> TriangleLoopActivity.default.
Proof.
  intro st. eexists.
  assert (H : getValidatedChoice "Enter choice (1-4): "
                TriangleLoopActivity.MIN_MENU_OPTION
                TriangleLoopActivity.MAX_MENU_OPTION 3 st
              = Some (2, mkIO (text_in nl)
                           ([OStr "Enter choice (1-4): "]
                            ++ choice_complaint 1 4
                            ++ [OStr "Enter choice (1-4): "])%list))
    by (vm_compute; reflexivity).
  split; [exact H|]. split; [reflexivity|].
  exact (proj1 (proj2 (default_labels_unreachable 3 st)) 2 _ H eq_refl).
Defined.

End Menus.

(** ** The grade evaluator *)

Section Grades.
Import InputValidator.

Lemma header_spec title st :
  UI.header title st = Some (tt, mkIO (cin st) (cout st ++ banner title)%list).
Proof.
  cbv [UI.header bind print_str print cin cout banner].
  now rewrite <- !app_assoc.
Qed.

Lemma line_spec st :
  UI.line st = Some (tt, mkIO (cin st) (cout st ++ rule)%list).
Proof.
  cbv [UI.line bind print_str print cin cout rule].
  now rewrite <- !app_assoc.
Qed.

Lemma print_spec x st :
  print x st = Some (tt, mkIO (cin st) (cout st ++ [x])%list).
Proof. reflexivity. Qed.

Lemma print_str_spec s st :
  print_str s st = Some (tt, mkIO (cin st) (cout st ++ [OStr s])%list).
Proof. reflexivity. Qed.

(** Runs the next statement of a sequence that only prints. *)
Ltac run_print :=
  first
    [ rewrite (bind_run _ _ _ _ _ (header_spec _ _))
    | rewrite (bind_run _ _ _ _ _ (line_spec _))
    | rewrite (bind_run _ _ _ _ _ (print_str_spec _ _))
    | rewrite (bind_run _ _ _ _ _ (print_spec _ _)) ];
  cbn [cin cout].

Lemma collect_cons fuel g rest sum st v st1 gs total st2 :
  getValidatedDouble (grade_prompt (StudentGradeEvaluator.name g))
    (of_int 0) (of_int 100) fuel st = Some (v, st1) ->
  StudentGradeEvaluator.collect fuel rest (dadd sum v) st1
  = Some ((gs, total), st2) ->
  StudentGradeEvaluator.collect fuel (g :: rest) sum st
  = Some ((StudentGradeEvaluator.mkGrade (StudentGradeEvaluator.name g) v :: gs,
           total), st2).
Proof.
  intros H1 H2. cbn [StudentGradeEvaluator.collect].
  rewrite (bind_run _ _ _ _ _ H1), (bind_run _ _ _ _ _ H2). reflexivity.
Qed.

Lemma collect_four fuel (s0 s1 s2 s3 s4 : io) (g1 g2 g3 g4 sum : double) :
  getValidatedDouble (grade_prompt "Prelim") (of_int 0) (of_int 100) fuel s0
  = Some (g1, s1) ->
  getValidatedDouble (grade_prompt "Midterm") (of_int 0) (of_int 100) fuel s1
  = Some (g2, s2) ->
  getValidatedDouble (grade_prompt "PreFinal") (of_int 0) (of_int 100) fuel s2
  = Some (g3, s3) ->
  getValidatedDouble (grade_prompt "Final") (of_int 0) (of_int 100) fuel s3
  = Some (g4, s4) ->
  exists gs,
    StudentGradeEvaluator.collect fuel StudentGradeEvaluator.grades sum s0
    = Some ((gs, dadd (dadd (dadd (dadd sum g1) g2) g3) g4), s4).
Proof.
  intros H1 H2 H3 H4. eexists. unfold StudentGradeEvaluator.grades.
  eapply collect_cons; [exact H1|].
  eapply collect_cons; [exact H2|].
  eapply collect_cons; [exact H3|].
  eapply collect_cons; [exact H4|].
  reflexivity.
Qed.

Lemma run_evaluation fuel st gs sum st4 :
  StudentGradeEvaluator.collect fuel StudentGradeEvaluator.grades (of_int 0)
    (mkIO (cin st) (cout st ++ banner "Student Grade Evaluator")%list)
  = Some ((gs, sum), st4) ->
  StudentGradeEvaluator.run fuel st
  = Some (tt,
          mkIO (get_char (ignore_line (cin st4)))
            (cout st4
             ++ evaluation (ddiv sum (of_int StudentGradeEvaluator.NUMBER_OF_GRADES)))%list).
Proof.
  intro H. unfold StudentGradeEvaluator.run.
  run_print. rewrite (bind_run _ _ _ _ _ H). cbn [snd].
  do 8 run_print.
  unfold evaluation, remark.
  destruct (dge _ _); run_print; run_print; rewrite pauseBuffer_spec;
    cbn [cin cout]; do 2 f_equal; rewrite <- !app_assoc; reflexivity.
Qed.

(** Finds an item in the output of a run on a given text. *)
Ltac show_item :=
  eexists; split;
  [ vm_compute; reflexivity
  | vm_compute; repeat (first [left; reflexivity | right]) ].

(** The examples of the specification. *)
Lemma grade_examples :
  (shows (ODouble (of_int 80)) (evaluate "80 80 80 80")
   /\ shows (OStr "PASADO KA BOI!!") (evaluate "80 80 80 80"))
  /\ (shows (ODouble (of_int 0)) (evaluate "0 0 0 0")
      /\ shows (OStr "BAGSAK KA BOI!!") (evaluate "0 0 0 0"))
  /\ (shows (ODouble (of_int 90)) (evaluate "100 100 60 100")
      /\ shows (OStr "PASADO KA BOI!!") (evaluate "100 100 60 100")).
Proof.
  repeat match goal with |- _ /\ _ => split end; show_item.
Qed.

(** C4.  With four grades read in [[0, 100]], the evaluator prints the
    average, which is the sum of the four (added to 0 in the order read)
    divided by 4 in floating point, not rounded; the remark is the pass
    remark exactly when this average is at least 80.  So (80, 80, 80, 80)
    gives 80 and passes, (0, 0, 0, 0) gives 0 and fails, and
    (100, 100, 60, 100) gives 90 and passes. *)
Theorem grade_average_and_remark
  (fuel : nat) (st s1 s2 s3 s4 : io) (g1 g2 g3 g4 : double) :
  let s0 := mkIO (cin st) (cout st ++ banner "Student Grade Evaluator")%list in
  getValidatedDouble "Enter Prelim Grade: " (of_int 0) (of_int 100) fuel s0
  = Some (g1, s1) ->
  getValidatedDouble "Enter Midterm Grade: " (of_int 0) (of_int 100) fuel s1
  = Some (g2, s2) ->
  getValidatedDouble "Enter PreFinal Grade: " (of_int 0) (of_int 100) fuel s2
  = Some (g3, s3) ->
  getValidatedDouble "Enter Final Grade: " (of_int 0) (of_int 100) fuel s3
  = Some (g4, s4) ->
  let sum := dadd (dadd (dadd (dadd (of_int 0) g1) g2) g3) g4 in
  let average := ddiv sum (of_int 4) in
  StudentGradeEvaluator.run fuel st
  = Some (tt, mkIO (get_char (ignore_line (cin s4)))
                (cout s4 ++ evaluation average)%list)
  /\ In (ODouble average) (evaluation average)
  /\ (In (OStr "PASADO KA BOI!!") (evaluation average)
      <-> dge average (of_int 80) = true)
  /\ (In (OStr "BAGSAK KA BOI!!") (evaluation average)
      <-> dge average (of_int 80) = false)
  /\ (shows (ODouble (of_int 80)) (evaluate "80 80 80 80")
      /\ shows (OStr "PASADO KA BOI!!") (evaluate "80 80 80 80"))
  /\ (shows (ODouble (of_int 0)) (evaluate "0 0 0 0")
      /\ shows (OStr "BAGSAK KA BOI!!") (evaluate "0 0 0 0"))
  /\ (shows (ODouble (of_int 90)) (evaluate "100 100 60 100")
      /\ shows (OStr "PASADO KA BOI!!") (evaluate "100 100 60 100")).
Proof.
  intros s0 H1 H2 H3 H4 sum average.
  destruct (collect_four fuel s0 s1 s2 s3 s4 g1 g2 g3 g4 (of_int 0) H1 H2 H3 H4)
    as (gs & Hc).
  split; [exact (run_evaluation fuel st gs sum s4 Hc)|].
  clearbody average. clear Hc.
  split; [unfold evaluation, rule; cbn [app In]; tauto|].
  assert (R : forall s, In (OStr s) (evaluation average)
                        <-> (s = string_fill 45 "-"%char \/ s = nl
                             \/ s = "Passing grade: " \/ s = "Your average: "
                             \/ s = "REMARKS: " \/ s = nl ++ ">>> ===== "
                             \/ s = remark average \/ s = " ===== <<<" ++ nl
                             \/ s = press_enter)).
  { intro s. unfold evaluation, rule, banner. cbn [app In]. split.
    - intro H.
      repeat (destruct H as [H|H];
              [try discriminate H; injection H as <-; tauto|]).
      destruct H.
    - intros [->|[->|[->|[->|[->|[->|[->|[->| ->]]]]]]]]; tauto. }
  split; [|split].
  - rewrite R. unfold remark. change StudentGradeEvaluator.PASSING_GRADE with 80.
    destruct (dge average (of_int 80)); split; intro H; try reflexivity.
    + tauto.
    + repeat (destruct H as [H|H]; try discriminate H).
    + discriminate H.
  - rewrite R. unfold remark. change StudentGradeEvaluator.PASSING_GRADE with 80.
    destruct (dge average (of_int 80)); split; intro H; try reflexivity.
    + repeat (destruct H as [H|H]; try discriminate H).
    + discriminate H.
    + tauto.
  - exact grade_examples.
Qed.

Lemma grade_average_and_remark_witness :
  let st := mkIO (text_in ("100" ++ nl ++ "100" ++ nl ++ "60" ++ nl ++ "100" ++ nl)) [] in
  exists s1 s2 s3 s4,
    getValidatedDouble "Enter Prelim Grade: " (of_int 0) (of_int 100) 2
      (mkIO (cin st) (cout st ++ banner "Student Grade Evaluator")%list)
    = Some (of_int 100, s1)
    /\ getValidatedDouble "Enter Midterm Grade: " (of_int 0) (of_int 100) 2 s1
       = Some (of_int 100, s2)
    /\ getValidatedDouble "Enter PreFinal Grade: " (of_int 0) (of_int 100) 2 s2
       = Some (of_int 60, s3)
    /\ getValidatedDouble "Enter Final Grade: " (of_int 0) (of_int 100) 2 s3
       = Some (of_int 100, s4)
    /\ StudentGradeEvaluator.run 2 st
       = Some (tt, mkIO (get_char (ignore_line (cin s4)))
                     (cout s4
                      ++ evaluation
                           (ddiv (dadd (dadd (dadd (dadd (of_int 0) (of_int 100))
                                                (of_int 100)) (of_int 60))
                                    (of_int 100)) (of_int 4)))%list).
Proof.
  intro st.
  pose (q1 := getValidatedDouble "Enter Prelim Grade: " (of_int 0) (of_int 100) 2
                (mkIO (cin st) (cout st ++ banner "Student Grade Evaluator")%list)).
  assert (E1 : exists s1, q1 = Some (of_int 100, s1))
    by (eexists; vm_compute; reflexivity).
  destruct E1 as (s1 & H1).
  assert (C1 : cin s1 = text_in (nl ++ "100" ++ nl ++ "60" ++ nl ++ "100" ++ nl)).
  { vm_compute in H1. now injection H1 as <-. }
  assert (E2 : exists s2,
             getValidatedDouble "Enter Midterm Grade: " (of_int 0) (of_int 100) 2 s1
             = Some (of_int 100, s2) /\ cin s2 = text_in (nl ++ "60" ++ nl ++ "100" ++ nl)).
  { destruct s1 as [c1 o1]. simpl in C1. subst c1. eexists.
    split; [vm_compute; reflexivity | reflexivity]. }
  destruct E2 as (s2 & H2 & C2).
  assert (E3 : exists s3,
             getValidatedDouble "Enter PreFinal Grade: " (of_int 0) (of_int 100) 2 s2
             = Some (of_int 60, s3) /\ cin s3 = text_in (nl ++ "100" ++ nl)).
  { destruct s2 as [c2 o2]. simpl in C2. subst c2. eexists.
    split; [vm_compute; reflexivity | reflexivity]. }
  destruct E3 as (s3 & H3 & C3).
  assert (E4 : exists s4,
             getValidatedDouble "Enter Final Grade: " (of_int 0) (of_int 100) 2 s3
             = Some (of_int 100, s4)).
  { destruct s3 as [c3 o3]. simpl in C3. subst c3. eexists.
    vm_compute; reflexivity. }
  destruct E4 as (s4 & H4).
  exists s1, s2, s3, s4. repeat (split; [assumption|]).
  exact (proj1 (grade_average_and_remark 2 st s1 s2 s3 s4
                  (of_int 100) (of_int 100) (of_int 60) (of_int 100)
                  H1 H2 H3 H4)).
Defined.

End Grades.

(** ** The currency conversion *)

Section Conversion.
Import InputValidator CurrencyExchangeCalculator.

Lemma summary_spec label amount st :
  summary label amount st
  = Some (tt, mkIO (cin st) (cout st ++ summary_items label amount)%list).
Proof.
  cbv [summary bind print_str print cin cout summary_items].
  now rewrite <- !app_assoc.
Qed.

Lemma row_spec label rate converted unit_ st :
  row label rate converted unit_ st
  = Some (tt, mkIO (cin st)
                (cout st ++ row_items label rate converted unit_)%list).
Proof.
  cbv [row bind print_str print cin cout row_items].
  now rewrite <- !app_assoc.
Qed.

Ltac run_print' :=
  first
    [ rewrite (bind_run _ _ _ _ _ (header_spec _ _))
    | rewrite (bind_run _ _ _ _ _ (line_spec _))
    | rewrite (bind_run _ _ _ _ _ (summary_spec _ _ _))
    | rewrite (bind_run _ _ _ _ _ (row_spec _ _ _ _ _))
    | rewrite (bind_run _ _ _ _ _ (print_str_spec _ _))
    | rewrite (bind_run _ _ _ _ _ (print_spec _ _)) ];
  cbn [cin cout].

Lemma displayConversion_spec amountInPHP fee netPHP usd eur jpy aud st :
  displayConversion amountInPHP fee netPHP usd eur jpy aud st
  = Some (tt, mkIO (cin st)
                (cout st
                 ++ conversion_items amountInPHP fee netPHP usd eur jpy aud)%list).
Proof.
  unfold displayConversion. repeat run_print'. rewrite row_spec. cbn [cin cout].
  unfold conversion_items. do 2 f_equal. now rewrite <- !app_assoc.
Qed.

Lemma conversion_doubles amountInPHP fee netPHP usd eur jpy aud :
  doubles_of (conversion_items amountInPHP fee netPHP usd eur jpy aud)
  = [ amountInPHP; fee; netPHP;
      USD_RATE; usd; EUR_RATE; eur; JPY_RATE; jpy; AUD_RATE; aud ].
Proof. reflexivity. Qed.

Lemma convertCurrency_eq fuel st :
  convertCurrency fuel st
  = bind (getValidatedDouble "Enter amount in PHP (₱): "
            (of_int 100) (of_int 100000) fuel)
      (fun amountInPHP =>
         bind (print_str fee_notice) (fun _ =>
           bind (getValidatedYesNo "Would you like to proceed?" fuel)
             (fun proceed =>
                if negb proceed then UI.goodbyeMessage cancelled
                else
                  let fee := dmul amountInPHP TRANSACTION_FEE_RATE in
                  let netPHP := dsub amountInPHP fee in
                  displayConversion amountInPHP fee netPHP
                    (ddiv netPHP USD_RATE) (ddiv netPHP EUR_RATE)
                    (ddiv netPHP JPY_RATE) (ddiv netPHP AUD_RATE)))) st.
Proof. reflexivity. Qed.

(** The example of the specification: the fee and the net amount of 1000. *)
Lemma fee_of_1000 :
  dmul (of_int 1000) TRANSACTION_FEE_RATE = of_int 50
  /\ dsub (of_int 1000) (of_int 50) = of_int 950.
Proof. split; vm_compute; reflexivity. Qed.

Lemma amount_bounds : dle (of_int 100) (of_int 100000) = true.
Proof. vm_compute. reflexivity. Qed.

(** C3.  The amount read is in [[100, 100000]].  When the user then
    confirms, [convertCurrency] displays the amount, the fee
    [amount * 0.05], the net amount [amount - fee] and, for each of the four
    currencies, its rate and [net / rate]; for 1000 the fee is 50 and the
    net amount 950.  When the user declines, the cancellation message is
    the only thing printed: no amount is displayed. *)
Theorem conversion_fee_and_amounts
  (fuel : nat) (st s1 s2 : io) (amount : double) (proceed : bool) :
  getValidatedDouble "Enter amount in PHP (₱): " (of_int 100) (of_int 100000)
    fuel st = Some (amount, s1) ->
  getValidatedYesNo "Would you like to proceed?" fuel
    (mkIO (cin s1) (cout s1 ++ [OStr fee_notice])%list) = Some (proceed, s2) ->
  let fee := dmul amount (of_decimal false 5 (-2)) in
  let net := dsub amount fee in
  (dge amount (of_int 100) = true /\ dle amount (of_int 100000) = true)
  /\ (proceed = true ->
      exists shown,
        convertCurrency fuel st
        = Some (tt, mkIO (cin s2) (cout s2 ++ shown)%list)
        /\ doubles_of shown
           = [ amount; fee; net;
               of_decimal false 582554 (-4);
               ddiv net (of_decimal false 582554 (-4));
               of_decimal false 676375 (-4);
               ddiv net (of_decimal false 676375 (-4));
               of_decimal false 3818 (-4);
               ddiv net (of_decimal false 3818 (-4));
               of_decimal false 383071 (-4);
               ddiv net (of_decimal false 383071 (-4)) ])
  /\ (proceed = false ->
      convertCurrency fuel st
      = Some (tt, mkIO (cin s2) (cout s2 ++ [OStr cancelled])%list)
      /\ doubles_of [OStr cancelled] = [])
  /\ dmul (of_int 1000) (of_decimal false 5 (-2)) = of_int 50
  /\ dsub (of_int 1000) (of_int 50) = of_int 950.
Proof.
  intros Ha Hp fee net.
  split; [exact (getValidatedDouble_range _ _ _ _ _ _ _ amount_bounds Ha)|].
  split; [|split; [|exact fee_of_1000]].
  - intros ->. eexists. split.
    + rewrite convertCurrency_eq, (bind_run _ _ _ _ _ Ha).
      rewrite (bind_run _ _ _ _ _ (print_str_spec _ _)). cbn [cin cout].
      rewrite (bind_run _ _ _ _ _ Hp). cbn [negb].
      apply displayConversion_spec.
    + apply conversion_doubles.
  - intros ->. split; [|reflexivity].
    rewrite convertCurrency_eq, (bind_run _ _ _ _ _ Ha).
    rewrite (bind_run _ _ _ _ _ (print_str_spec _ _)). cbn [cin cout].
    rewrite (bind_run _ _ _ _ _ Hp). reflexivity.
Qed.

Lemma conversion_fee_and_amounts_witness :
  let st := mkIO (text_in ("1000" ++ nl ++ "yes" ++ nl)) [] in
  let s1 := mkIO (text_in (nl ++ "yes" ++ nl)) [OStr "Enter amount in PHP (₱): "] in
  let s2 :=
    mkIO (text_in nl)
      [OStr "Enter amount in PHP (₱): "; OStr fee_notice;
       OStr "Would you like to proceed? (y/n): "] in
  getValidatedDouble "Enter amount in PHP (₱): " (of_int 100) (of_int 100000)
    2 st = Some (of_int 1000, s1)
  /\ getValidatedYesNo "Would you like to proceed?" 2
       (mkIO (cin s1) (cout s1 ++ [OStr fee_notice])%list) = Some (true, s2)
  /\ exists shown,
       convertCurrency 2 st = Some (tt, mkIO (cin s2) (cout s2 ++ shown)%list)
       /\ doubles_of shown
          = [ of_int 1000;
              dmul (of_int 1000) (of_decimal false 5 (-2));
              dsub (of_int 1000) (dmul (of_int 1000) (of_decimal false 5 (-2)));
              of_decimal false 582554 (-4);
              ddiv (dsub (of_int 1000)
                      (dmul (of_int 1000) (of_decimal false 5 (-2))))
                (of_decimal false 582554 (-4));
              of_decimal false 676375 (-4);
              ddiv (dsub (of_int 1000)
                      (dmul (of_int 1000) (of_decimal false 5 (-2))))
                (of_decimal false 676375 (-4));
              of_decimal false 3818 (-4);
              ddiv (dsub (of_int 1000)
                      (dmul (of_int 1000) (of_decimal false 5 (-2))))
                (of_decimal false 3818 (-4));
              of_decimal false 383071 (-4);
              ddiv (dsub (of_int 1000)
                      (dmul (of_int 1000) (of_decimal false 5 (-2))))
                (of_decimal false 383071 (-4)) ].
Proof.
  intros st s1 s2.
  assert (Ha : getValidatedDouble "Enter amount in PHP (₱): "
                 (of_int 100) (of_int 100000) 2 st = Some (of_int 1000, s1))
    by (vm_compute; reflexivity).
  assert (Hp : getValidatedYesNo "Would you like to proceed?" 2
                 (mkIO (cin s1) (cout s1 ++ [OStr fee_notice])%list)
               = Some (true, s2))
    by (vm_compute; reflexivity).
  split; [exact Ha|]. split; [exact Hp|].
  exact (proj1 (proj2 (conversion_fee_and_amounts 2 st s1 s2 (of_int 1000) true
                         Ha Hp)) eq_refl).
Defined.

End Conversion.

(** * Further properties *)

(** ** How much input an extraction takes *)

Module Consumption.

Lemma skipws_length s : (List.length (skipws s) <= List.length s)%nat.
Proof.
  induction s as [|c s IH]; simpl; [lia|].
  destruct (isspace c); simpl; lia.
Qed.

Lemma take_sign_length s :
  (List.length (snd (take_sign s)) <= List.length s)%nat.
Proof.
  destruct s as [|c s]; simpl; [lia|].
  destruct (Ascii.eqb c "-"%char); [simpl; lia|].
  destruct (Ascii.eqb c "+"%char); simpl; lia.
Qed.

Lemma span_digits_length s :
  (List.length (fst (span_digits s)) + List.length (snd (span_digits s))
   = List.length s)%nat.
Proof.
  induction s as [|c s IH]; simpl; [reflexivity|].
  destruct (isdigit c); [|simpl; lia].
  destruct (span_digits s) as [ds r]. simpl in *. lia.
Qed.

Lemma span_word_length s :
  (String.length (fst (span_word s)) + List.length (snd (span_word s))
   = List.length s)%nat.
Proof.
  induction s as [|c s IH]; simpl; [reflexivity|].
  destruct (isspace c); [simpl; lia|].
  destruct (span_word s) as [w r]. simpl in *. lia.
Qed.

Lemma take_exponent_length s :
  (List.length (snd (take_exponent s)) <= List.length s)%nat.
Proof.
  destruct s as [|c r]; simpl; [lia|].
  destruct (is_exp_mark c); [|simpl; lia].
  pose proof (take_sign_length r) as H1.
  destruct (take_sign r) as [eneg r1]. simpl in H1.
  pose proof (span_digits_length r1) as H2.
  destruct (span_digits r1) as [[|d ds] r2]; simpl in *; lia.
Qed.

Lemma ignore_line_length s :
  (List.length (ignore_line s) <= List.length s)%nat.
Proof.
  induction s as [|c s IH]; simpl; [lia|].
  destruct (Ascii.eqb c newline); lia.
Qed.

Lemma ignore_line_shorter c s :
  (List.length (ignore_line (c :: s)) < List.length (c :: s))%nat.
Proof.
  simpl. pose proof (ignore_line_length s).
  destruct (Ascii.eqb c newline); lia.
Qed.

(** An extraction never gives characters back, and one that succeeds has
    taken at least one. *)
Lemma extract_int_length s r s' :
  extract_int s = (r, s') ->
  (List.length s' <= List.length s)%nat
  /\ (r <> None -> (List.length s' < List.length s)%nat).
Proof.
  unfold extract_int.
  pose proof (skipws_length s) as H0.
  pose proof (take_sign_length (skipws s)) as H1.
  destruct (take_sign (skipws s)) as [neg s1]. simpl in H1.
  pose proof (span_digits_length s1) as H2.
  destruct (span_digits s1) as [[|d ds] s2]; simpl in H2.
  - intro H. injection H as <- <-. split; [lia|congruence].
  - destruct (in_int _); intro H; injection H as <- <-; split; intros; lia.
Qed.

Lemma extract_double_length s r s' :
  extract_double s = (r, s') ->
  (List.length s' <= List.length s)%nat
  /\ (r <> None -> (List.length s' < List.length s)%nat).
Proof.
  unfold extract_double.
  pose proof (skipws_length s) as H0.
  pose proof (take_sign_length (skipws s)) as H1.
  destruct (take_sign (skipws s)) as [neg s1]. simpl in H1.
  pose proof (span_digits_length s1) as H2.
  destruct (span_digits s1) as [ip s2]. simpl in H2.
  assert (H3 : forall fp s3,
             match s2 with
             | [] => ([], [])
             | c :: r => if Ascii.eqb c "."%char then span_digits r else ([], s2)
             end = (fp, s3) ->
             (List.length fp + List.length s3 <= List.length s2)%nat).
  { intros fp s3. destruct s2 as [|c r2].
    - intro H. injection H as <- <-. simpl. lia.
    - destruct (Ascii.eqb c "."%char).
      + pose proof (span_digits_length r2) as H. intro E. rewrite E in H.
        simpl in *. lia.
      + intro H. injection H as <- <-. simpl. lia. }
  destruct (match s2 with
            | [] => ([], [])
            | c :: r => if Ascii.eqb c "."%char then span_digits r else ([], s2)
            end) as [fp s3].
  specialize (H3 fp s3 eq_refl).
  destruct (ip ++ fp)%list as [|d ds] eqn:Em.
  - intro H. injection H as <- <-. split; [lia|congruence].
  - assert (Hm : (0 < List.length ip + List.length fp)%nat).
    { rewrite <- length_app, Em. simpl. lia. }
    pose proof (take_exponent_length s3) as H4.
    destruct (take_exponent s3) as [[[e|]|] s4]; simpl in H4; cbv zeta;
      try destruct (is_infinity _);
      intro H; injection H as <- <-; split; intros; lia.
Qed.

Lemma extract_string_length s r s' :
  extract_string s = (r, s') ->
  (List.length s' <= List.length s)%nat
  /\ (r <> None -> (List.length s' < List.length s)%nat).
Proof.
  unfold extract_string.
  pose proof (skipws_length s) as H0.
  pose proof (span_word_length (skipws s)) as H1.
  destruct (span_word (skipws s)) as [[|c w] s1]; simpl in H1;
    intro H; injection H as <- <-; split; intros; try lia; congruence.
Qed.

End Consumption.

(** ** The read loops end within the input, or never *)

Module ReadBound.
Import InputValidator ValidatorFacts Consumption.

Section Bound.
Context {T : Type} `{E : Extractable T} (prompt : string).
Hypothesis extract_length : forall s r s',
  extract (T:=T) s = (r, s') ->
  (List.length s' <= List.length s)%nat
  /\ (r <> None -> (List.length s' < List.length s)%nat).

(** A read that returns has taken at least one character. *)
Lemma getValidated_shorter n st v st1 :
  getValidated prompt n st = Some (v, st1) ->
  (List.length (cin st1) < List.length (cin st))%nat.
Proof.
  revert st. induction n as [|n IH]; intros st H; [discriminate|].
  destruct (extract (T:=T) (cin st)) as [[w|] s] eqn:Ex.
  - rewrite (getValidated_ok prompt n st w s Ex) in H. injection H as <- <-.
    simpl. apply (extract_length _ _ _ Ex). discriminate.
  - rewrite (getValidated_fail prompt n st s Ex) in H. apply IH in H.
    simpl in H. pose proof (ignore_line_length s).
    pose proof (proj1 (extract_length _ _ _ Ex)). lia.
Qed.

(** With more fuel than there are characters, a read that has not returned
    never will. *)
Lemma getValidated_decided n st :
  (List.length (cin st) < n)%nat ->
  getValidated prompt n st = None ->
  forall m, getValidated prompt m st = None.
Proof.
  revert st. induction n as [|n IH]; intros st Hn H; [lia|].
  destruct (extract (T:=T) (cin st)) as [[w|] s] eqn:Ex.
  - now rewrite (getValidated_ok prompt n st w s Ex) in H.
  - rewrite (getValidated_fail prompt n st s Ex) in H.
    pose proof (proj1 (extract_length _ _ _ Ex)) as Hs.
    assert (R : forall m,
               getValidated prompt m
                 (mkIO (ignore_line s)
                    (cout st ++ [OStr prompt; OStr parse_error])%list) = None).
    { destruct (cin st) as [|c r] eqn:Ec.
      - assert (s = []) by (destruct s; [reflexivity | simpl in Hs; lia]).
        subst s. intro m. revert Ex. generalize (cout st). clear.
        induction m as [|m IH]; intros o Ex; [reflexivity|].
        pose (st := mkIO [] (o ++ [OStr prompt; OStr parse_error])%list).
        change (getValidated prompt (S m) st = None).
        rewrite (getValidated_fail prompt m st [] Ex). apply IH, Ex.
      - apply IH; [|exact H]. simpl.
        destruct s as [|c' s']; [simpl in *; lia|].
        pose proof (ignore_line_shorter c' s'). simpl in *. lia. }
    intros [|m]; [reflexivity|].
    rewrite (getValidated_fail prompt m st s Ex). apply R.
Qed.

Lemma getValidated_within st v st' :
  returns (getValidated prompt) st v st'
  <-> getValidated prompt (S (List.length (cin st))) st = Some (v, st').
Proof.
  split; [|intro H; now exists (S (List.length (cin st)))].
  intros [m Hm].
  destruct (getValidated prompt (S (List.length (cin st))) st) as [r|] eqn:G.
  - pose proof (getValidated_mono prompt _ (Nat.max m (S (List.length (cin st))))
                  st _ (Nat.le_max_l _ _) Hm) as H1.
    pose proof (getValidated_mono prompt _ (Nat.max m (S (List.length (cin st))))
                  st _ (Nat.le_max_r _ _) G) as H2.
    congruence.
  - rewrite (getValidated_decided _ st (Nat.lt_succ_diag_r _) G m) in Hm.
    discriminate.
Qed.

(** *** Loops around [getValidated]

    A loop whose turn reads a value, says something and either leaves with
    a verdict or goes round again. *)
Variables (R : Type) (verdict : T -> option R) (said : T -> ostream).
Variable body : nat -> M (option R).
Hypothesis body_shape : forall fuel st,
  body fuel st =
  match getValidated prompt fuel st with
  | Some (v, st1) =>
      Some (verdict v, mkIO (cin st1) (cout st1 ++ said v)%list)
  | None => None
  end.

Lemma shaped_body_mono : mono body.
Proof.
  intros n m st r Hle. rewrite !body_shape.
  destruct (getValidated prompt n st) as [[w st1]|] eqn:G; [|discriminate].
  now rewrite (getValidated_mono prompt n m st _ Hle G).
Qed.

Lemma shaped_loop_decided n st :
  (List.length (cin st) < n)%nat ->
  loop body (S n) st = None ->
  forall m, loop body m st = None.
Proof.
  revert st. induction n as [|n IH]; intros st Hn H; [lia|].
  rewrite loop_turn, body_shape in H.
  destruct (getValidated prompt (S n) st) as [[w st1]|] eqn:G.
  - destruct (verdict w) as [r|] eqn:V; [discriminate|].
    pose proof (getValidated_shorter _ _ _ _ G) as Hs.
    assert (R' : forall m,
               loop body m (mkIO (cin st1) (cout st1 ++ said w)%list) = None)
      by (apply IH; [simpl; lia | exact H]).
    intros [|m]; [reflexivity|]. rewrite loop_turn, body_shape.
    destruct (getValidated prompt m st) as [[w' st1']|] eqn:G'; [|reflexivity].
    pose proof (getValidated_mono prompt _ (Nat.max m (S n)) st _
                  (Nat.le_max_l _ _) G') as H1.
    pose proof (getValidated_mono prompt _ (Nat.max m (S n)) st _
                  (Nat.le_max_r _ _) G) as H2.
    rewrite H1 in H2. injection H2 as -> ->. rewrite V. apply R'.
  - intros [|m]; [reflexivity|]. rewrite loop_turn, body_shape.
    now rewrite (getValidated_decided _ st Hn G m).
Qed.

Lemma shaped_loop_within st r st' :
  returns (loop body) st r st'
  <-> loop body (S (S (List.length (cin st)))) st = Some (r, st').
Proof.
  split; [|intro H; now exists (S (S (List.length (cin st))))].
  intros [m Hm]. set (n := S (S (List.length (cin st)))).
  destruct (loop body n st) as [x|] eqn:G.
  - pose proof (mono_loop body shaped_body_mono _ (Nat.max m n) st _
                  (Nat.le_max_l _ _) Hm) as H1.
    pose proof (mono_loop body shaped_body_mono _ (Nat.max m n) st _
                  (Nat.le_max_r _ _) G) as H2.
    congruence.
  - rewrite (shaped_loop_decided _ st (Nat.lt_succ_diag_r _) G m) in Hm.
    discriminate.
Qed.

End Bound.
End ReadBound.

Section ReadsEnd.
Import InputValidator ValidatorFacts Consumption ReadBound.

(** X1.  A read by [getValidated] of an [int], a [double] or a word that
    returns at all returns within as many attempts as the input has
    characters, plus one: each failed attempt drops at least one character
    of a non-empty input, and once the input is empty every attempt fails. *)
Theorem reads_end_within_input (prompt : string) (st : io) :
  (forall (v : Z) st',
      returns (getValidated prompt) st v st'
      <-> getValidated prompt (S (List.length (cin st))) st = Some (v, st'))
  /\ (forall (v : double) st',
      returns (getValidated prompt) st v st'
      <-> getValidated prompt (S (List.length (cin st))) st = Some (v, st'))
  /\ (forall (v : string) st',
      returns (getValidated prompt) st v st'
      <-> getValidated prompt (S (List.length (cin st))) st = Some (v, st')).
Proof.
  split; [|split]; intros v st'.
  - apply (getValidated_within (T:=Z) prompt extract_int_length).
  - apply (getValidated_within (T:=double) prompt extract_double_length).
  - apply (getValidated_within (T:=string) prompt extract_string_length).
Qed.

Lemma same_state st : mkIO (cin st) (cout st ++ [])%list = st.
Proof. destruct st as [c o]. simpl. now rewrite app_nil_r. Qed.

Lemma getValidatedChoice_shape prompt min max fuel st :
  (choice <- getValidated prompt fuel ;;
   if bad_choice min max choice then
     print_str "[ERROR] Choice must be " ;;
     print (OInt min) ;;
     print_str "-" ;;
     print (OInt max) ;;
     print_str (". Try again." ++ nl) ;;
     again
   else leave choice) st =
  match getValidated prompt fuel st with
  | Some (v, st1) =>
      Some (choice_verdict min max v,
            mkIO (cin st1) (cout st1 ++ choice_said min max v)%list)
  | None => None
  end.
Proof.
  rewrite getValidatedChoice_body. unfold choice_verdict, choice_said.
  destruct (getValidated prompt fuel st) as [[v st1]|]; [|reflexivity].
  destruct (bad_choice min max v); [reflexivity|]. now rewrite same_state.
Qed.

Lemma getValidatedDouble_shape prompt min max fuel st :
  (value <- getValidated prompt fuel ;;
   if bad_value min max value then
     print_str "[ERROR] Value must be between " ;;
     print (ODouble min) ;;
     print_str " and " ;;
     print (ODouble max) ;;
     print_str (". Try again." ++ nl) ;;
     again
   else leave value) st =
  match getValidated prompt fuel st with
  | Some (v, st1) =>
      Some (value_verdict min max v,
            mkIO (cin st1) (cout st1 ++ value_said min max v)%list)
  | None => None
  end.
Proof.
  rewrite getValidatedDouble_body. unfold value_verdict, value_said.
  destruct (getValidated prompt fuel st) as [[v st1]|]; [|reflexivity].
  destruct (bad_value min max v); [reflexivity|]. now rewrite same_state.
Qed.

Lemma getValidatedYesNo_shape prompt fuel st :
  (input <- getValidated (prompt ++ " (y/n): ") fuel ;;
   let input := lowercase input in
   if (input =? "y") || (input =? "yes") then leave true
   else if (input =? "n") || (input =? "no") then leave false
   else
     print_str ("[ERROR] Please type 'y' or 'n'." ++ nl) ;;
     again) st =
  match getValidated (prompt ++ " (y/n): ") fuel st with
  | Some (tok, st1) =>
      Some (answer_verdict tok,
            mkIO (cin st1) (cout st1 ++ answer_said tok)%list)
  | None => None
  end.
Proof.
  unfold bind, answer_said, answer_verdict.
  destruct (getValidated _ fuel st) as [[tok st1]|]; [|reflexivity].
  cbv zeta.
  destruct ((lowercase tok =? "y") || (lowercase tok =? "yes")).
  { unfold leave, ret. now rewrite same_state. }
  destruct ((lowercase tok =? "n") || (lowercase tok =? "no")).
  { unfold leave, ret. now rewrite same_state. }
  reflexivity.
Qed.

(** X2.  [getValidatedChoice], [getValidatedDouble] and [getValidatedYesNo]
    return, when they return at all, within as many turns as the input has
    characters, plus two: every turn that goes round again has taken at
    least one character. *)
Theorem checked_reads_end_within_input (prompt : string) (st : io) :
  (forall min max v st',
      returns (getValidatedChoice prompt min max) st v st'
      <-> getValidatedChoice prompt min max (S (S (List.length (cin st)))) st
          = Some (v, st'))
  /\ (forall min max v st',
      returns (getValidatedDouble prompt min max) st v st'
      <-> getValidatedDouble prompt min max (S (S (List.length (cin st)))) st
          = Some (v, st'))
  /\ (forall b st',
      returns (getValidatedYesNo prompt) st b st'
      <-> getValidatedYesNo prompt (S (S (List.length (cin st)))) st
          = Some (b, st')).
Proof.
  split; [|split].
  - intros min max v st'.
    apply (shaped_loop_within (T:=Z) prompt extract_int_length Z
             (choice_verdict min max) (choice_said min max) _
             (getValidatedChoice_shape prompt min max)).
  - intros min max v st'.
    apply (shaped_loop_within (T:=double) prompt extract_double_length double
             (value_verdict min max) (value_said min max) _
             (getValidatedDouble_shape prompt min max)).
  - intros b st'.
    apply (shaped_loop_within (T:=string) (prompt ++ " (y/n): ")
             extract_string_length bool answer_verdict answer_said _
             (getValidatedYesNo_shape prompt)).
Qed.

End ReadsEnd.

(** ** Statements that only print *)

Lemma prints_print x : prints (print x) [x].
Proof. intro st. reflexivity. Qed.

Lemma prints_print_str s : prints (print_str s) [OStr s].
Proof. intro st. reflexivity. Qed.

Lemma prints_ret : prints (ret tt) [].
Proof. intro st. unfold ret. now rewrite same_state. Qed.

Lemma prints_seq c1 c2 o1 o2 :
  prints c1 o1 -> prints c2 o2 -> prints (c1 ;; c2) (o1 ++ o2)%list.
Proof.
  intros H1 H2 st. rewrite (bind_run _ _ _ _ _ (H1 st)), H2. simpl.
  now rewrite app_assoc.
Qed.

Lemma prints_header title : prints (UI.header title) (banner title).
Proof. intro st. apply header_spec. Qed.

Lemma prints_line : prints UI.line rule.
Proof. intro st. apply line_spec. Qed.

Lemma prints_goodbye message : prints (UI.goodbyeMessage message) [OStr message].
Proof. intro st. reflexivity. Qed.

(** Finds what a sequence of printing statements prints. *)
Ltac printing :=
  repeat first
    [ eapply prints_seq
    | apply prints_header
    | apply prints_line
    | apply prints_goodbye
    | apply prints_print_str
    | apply prints_print
    | apply prints_ret ].

Lemma prints_show_items i items :
  exists o, prints (Program.show_items i items) o.
Proof.
  revert i. induction items as [|item rest IH]; intro i; simpl.
  - eexists. apply prints_ret.
  - destruct (IH (i + 1)) as [o Ho]. eexists. printing. exact Ho.
Qed.

Lemma prints_main_menu : exists o, prints Program.show_menu o.
Proof.
  destruct (prints_show_items 0 Program.menuItems) as [o Ho].
  eexists. unfold Program.show_menu.
  eapply prints_seq; [apply prints_line|].
  eapply prints_seq; [apply prints_print_str|].
  eapply prints_seq; [apply prints_line|].
  eapply prints_seq; [exact Ho | apply prints_line].
Qed.

Lemma prints_triangle_menu : exists o, prints TriangleLoopActivity.show_menu o.
Proof. eexists. unfold TriangleLoopActivity.show_menu. printing. Qed.

Lemma prints_currency_menu :
  exists o, prints CurrencyExchangeCalculator.show_menu o.
Proof. eexists. unfold CurrencyExchangeCalculator.show_menu. printing. Qed.


(** ** The end of the input *)

Lemma bind_none {A B} (c : M A) (k : A -> M B) st :
  c st = None -> bind c k st = None.
Proof. intro H. unfold bind. now rewrite H. Qed.

Section Turns.
Import InputValidator ValidatorFacts.

Lemma getValidatedChoice_turn prompt min max n st :
  getValidatedChoice prompt min max (S n) st =
  match getValidated prompt n st with
  | Some (v, st1) =>
      if bad_choice min max v
      then getValidatedChoice prompt min max n
             (mkIO (cin st1) (cout st1 ++ choice_complaint min max)%list)
      else Some (v, st1)
  | None => None
  end.
Proof.
  unfold getValidatedChoice. rewrite loop_turn.
  pose proof (getValidatedChoice_body prompt min max n st) as B.
  unfold bad_choice in B. rewrite B. unfold bad_choice.
  destruct (getValidated prompt n st) as [[v st1]|]; [|reflexivity].
  destruct ((v <? min) || (v >? max))%Z; reflexivity.
Qed.

Lemma getValidatedDouble_turn prompt min max n st :
  getValidatedDouble prompt min max (S n) st =
  match getValidated prompt n st with
  | Some (v, st1) =>
      if bad_value min max v
      then getValidatedDouble prompt min max n
             (mkIO (cin st1) (cout st1 ++ value_complaint min max)%list)
      else Some (v, st1)
  | None => None
  end.
Proof.
  unfold getValidatedDouble. rewrite loop_turn.
  pose proof (getValidatedDouble_body prompt min max n st) as B.
  unfold bad_value in B. rewrite B. unfold bad_value.
  destruct (getValidated prompt n st) as [[v st1]|]; [|reflexivity].
  destruct (dlt v min || dgt v max); reflexivity.
Qed.

Lemma getValidatedChoice_end prompt min max n out :
  getValidatedChoice prompt min max n (mkIO [] out) = None.
Proof.
  destruct n as [|n]; [reflexivity|].
  now rewrite getValidatedChoice_turn, getValidated_int_end.
Qed.

Lemma getValidatedDouble_end prompt min max n out :
  getValidatedDouble prompt min max n (mkIO [] out) = None.
Proof.
  destruct n as [|n]; [reflexivity|].
  now rewrite getValidatedDouble_turn, getValidated_double_end.
Qed.

Lemma Program_run_eq fuel st :
  Program.run fuel st
  = bind (print_str nl ;; print_str (string_fill 45 "*"%char) ;; print_str nl ;;
          print_str ("   WELCOME TO PROGRAMMING ACTIVITY SYSTEM" ++ nl) ;;
          print_str (string_fill 45 "*"%char) ;; print_str nl)
      (fun _ => loop Program.turn fuel) st.
Proof. reflexivity. Qed.

Lemma Triangle_run_eq fuel st :
  TriangleLoopActivity.run fuel st
  = bind (UI.header "Triangle Loop Activity")
      (fun _ => loop TriangleLoopActivity.turn fuel) st.
Proof. reflexivity. Qed.

Lemma Grade_run_start fuel st :
  StudentGradeEvaluator.collect fuel StudentGradeEvaluator.grades (of_int 0)
    (mkIO (cin st) (cout st ++ banner "Student Grade Evaluator")%list) = None ->
  StudentGradeEvaluator.run fuel st = None.
Proof.
  intro H. unfold StudentGradeEvaluator.run.
  rewrite (bind_run _ _ _ _ _ (header_spec _ _)). now apply bind_none.
Qed.

(** X3.  With no input left, the program never returns, and neither does
    the grade evaluator, the triangle activity or the currency calculator:
    their first read fails for ever.  Only the student information, which
    reads nothing but the pause, returns. *)
Theorem no_input_no_return (fuel : nat) (out : ostream) :
  Program.run fuel (mkIO [] out) = None
  /\ StudentGradeEvaluator.run fuel (mkIO [] out) = None
  /\ TriangleLoopActivity.run fuel (mkIO [] out) = None
  /\ CurrencyExchangeCalculator.run fuel (mkIO [] out) = None
  /\ exists o,
       VirtualStudentInfo.run (mkIO [] out) = Some (tt, mkIO [] (out ++ o)%list).
Proof.
  split; [|split; [|split; [|split]]].
  - rewrite Program_run_eq.
    assert (P : exists o, prints
                  (print_str nl ;; print_str (string_fill 45 "*"%char) ;;
                   print_str nl ;;
                   print_str ("   WELCOME TO PROGRAMMING ACTIVITY SYSTEM" ++ nl) ;;
                   print_str (string_fill 45 "*"%char) ;; print_str nl) o)
      by (eexists; printing).
    destruct P as [o P]. rewrite (bind_run _ _ _ _ _ (P _)). cbn [cin cout].
    destruct fuel as [|n]; [reflexivity|].
    rewrite loop_turn, Program_turn_eq.
    destruct prints_main_menu as [m Hm].
    rewrite (bind_run _ _ _ _ _ (Hm _)). cbn [cin cout].
    now rewrite (bind_none _ _ _ (getValidatedChoice_end _ _ _ _ _)).
  - apply Grade_run_start. cbn [cin cout].
    unfold StudentGradeEvaluator.grades. cbn [StudentGradeEvaluator.collect].
    apply bind_none. apply getValidatedDouble_end.
  - rewrite Triangle_run_eq, (bind_run _ _ _ _ _ (header_spec _ _)).
    cbn [cin cout]. destruct fuel as [|n]; [reflexivity|].
    rewrite loop_turn, Triangle_turn_eq.
    destruct prints_triangle_menu as [m Hm].
    rewrite (bind_run _ _ _ _ _ (Hm _)). cbn [cin cout].
    now rewrite (bind_none _ _ _ (getValidatedChoice_end _ _ _ _ _)).
  - unfold CurrencyExchangeCalculator.run.
    destruct fuel as [|n]; [reflexivity|].
    rewrite loop_turn, Currency_turn_eq.
    destruct prints_currency_menu as [m Hm].
    rewrite (bind_run _ _ _ _ _ (Hm _)). cbn [cin cout].
    now rewrite (bind_none _ _ _ (getValidatedChoice_end _ _ _ _ _)).
  - exists (banner "Virtual Student Info"
             ++ [OStr ("Name: Alberto Jr Deniros" ++ nl);
                 OStr ("Section and Course: BSCS 1-A" ++ nl);
                 OStr ("AGE: 23" ++ nl);
                 OStr ("GENDER: MALE" ++ nl);
                 OStr ("CODING DEVICES: Desktop Computer" ++ nl);
                 OStr press_enter])%list.
    unfold VirtualStudentInfo.run.
    rewrite (bind_run _ _ _ _ _ (header_spec _ _)). cbn [cin cout].
    do 5 (rewrite (bind_run _ _ _ _ _ (print_str_spec _ _)); cbn [cin cout]).
    rewrite pauseBuffer_spec. cbn [cin cout ignore_line get_char tl].
    do 2 f_equal. now rewrite <- !app_assoc.
Qed.

End Turns.

(** ** Leaving a menu *)

Section Leaving.
Import InputValidator ValidatorFacts.

Lemma again_value {A} st (a : A) st' : again st = Some (Some a, st') -> False.
Proof. discriminate. Qed.

Lemma then_again_value {A B} (c : M A) st (b : B) st' :
  (c ;; again) st = Some (Some b, st') -> False.
Proof.
  intro H. apply bind_inv in H as (a & s & _ & H). discriminate H.
Qed.

Lemma Program_loop_exit n st st' :
  loop Program.turn n st = Some (tt, st') ->
  exists s m s0 s1,
    goes_round Program.turn st s
    /\ Program.show_menu s = Some (tt, s0)
    /\ getValidatedChoice main_prompt 1 Program.size m s0 = Some (5, s1)
    /\ Program.turn m s = Some (Some tt, st')
    /\ st' = mkIO (cin s1) (cout s1 ++ [OStr main_goodbye])%list.
Proof.
  revert st. induction n as [|n IH]; intros st H; [discriminate|].
  rewrite loop_turn in H.
  destruct (Program.turn n st) as [[[[]|] s2]|] eqn:T; [| |discriminate].
  - injection H as <-. pose proof T as T0. rewrite Program_turn_eq in T.
    apply bind_inv in T as ([] & s0 & Hs & T).
    apply bind_inv in T as (k & s1 & Hg & T).
    exists st, n, s0, s1.
    pose proof (proj1 (getValidatedChoice_range _ _ _ _ _ _ _ Hg)) as R.
    change Program.size with 5 in R.
    assert (K : k = 1 \/ k = 2 \/ k = 3 \/ k = 4 \/ k = 5) by lia.
    destruct K as [->|[->|[->|[->| ->]]]];
      cbv [Program.select Program.dispatch] in T;
      try (now apply then_again_value in T).
    split; [apply round_none|]. split; [exact Hs|]. split; [exact Hg|].
    split; [exact T0|].
    apply bind_inv in T as ([] & s3 & Hp & T). injection T as <-.
    unfold UI.goodbyeMessage in Hp. rewrite print_str_spec in Hp.
    now injection Hp as <-.
  - destruct (IH _ H) as (s & m & s0 & s1 & Hr & Hrest).
    exists s, m, s0, s1. split; [|exact Hrest].
    exact (round_more _ _ _ _ _ T Hr).
Qed.

Lemma Triangle_loop_exit n st st' :
  loop TriangleLoopActivity.turn n st = Some (tt, st') ->
  exists s m s0 s1,
    goes_round TriangleLoopActivity.turn st s
    /\ TriangleLoopActivity.show_menu s = Some (tt, s0)
    /\ getValidatedChoice "Enter choice (1-4): " 1 4 m s0 = Some (4, s1)
    /\ TriangleLoopActivity.turn m s = Some (Some tt, st')
    /\ st' = mkIO (cin s1) (cout s1 ++ triangle_goodbye)%list.
Proof.
  revert st. induction n as [|n IH]; intros st H; [discriminate|].
  rewrite loop_turn in H.
  destruct (TriangleLoopActivity.turn n st) as [[[[]|] s2]|] eqn:T;
    [| |discriminate].
  - injection H as <-. pose proof T as T0. rewrite Triangle_turn_eq in T.
    apply bind_inv in T as ([] & s0 & Hs & T).
    apply bind_inv in T as (k & s1 & Hg & T).
    exists st, n, s0, s1. destruct (Z.eqb_spec k 4) as [->|Hk].
    + split; [apply round_none|]. split; [exact Hs|]. split; [exact Hg|].
      split; [exact T0|].
      apply bind_inv in T as ([] & s3 & Hp & T). injection T as <-.
      unfold TriangleLoopActivity.leave_menu, UI.goodbyeMessage in Hp.
      rewrite (bind_run _ _ _ _ _ (print_str_spec _ _)) in Hp.
      rewrite print_str_spec in Hp. cbn [cin cout] in Hp.
      injection Hp as <-. unfold triangle_goodbye.
      now rewrite <- app_assoc.
    + exfalso.
      apply bind_inv in T as (h & s3 & _ & T).
      apply bind_inv in T as ([] & s4 & _ & T).
      apply bind_inv in T as ([] & s5 & _ & T).
      now apply then_again_value in T.
  - destruct (IH _ H) as (s & m & s0 & s1 & Hr & Hrest).
    exists s, m, s0, s1. split; [|exact Hrest].
    exact (round_more _ _ _ _ _ T Hr).
Qed.

Lemma Currency_loop_exit n st st' :
  loop CurrencyExchangeCalculator.turn n st = Some (tt, st') ->
  exists s m s0 s1,
    goes_round CurrencyExchangeCalculator.turn st s
    /\ CurrencyExchangeCalculator.show_menu s = Some (tt, s0)
    /\ getValidatedChoice "Enter choice (1-3): " 1 3 m s0 = Some (3, s1)
    /\ CurrencyExchangeCalculator.turn m s = Some (Some tt, st')
    /\ st' = mkIO (cin s1) (cout s1 ++ currency_goodbye)%list.
Proof.
  revert st. induction n as [|n IH]; intros st H; [discriminate|].
  rewrite loop_turn in H.
  destruct (CurrencyExchangeCalculator.turn n st) as [[[[]|] s2]|] eqn:T;
    [| |discriminate].
  - injection H as <-. pose proof T as T0. rewrite Currency_turn_eq in T.
    apply bind_inv in T as ([] & s0 & Hs & T).
    apply bind_inv in T as (k & s1 & Hg & T).
    exists st, n, s0, s1. destruct (Z.eqb_spec k 3) as [->|Hk].
    + split; [apply round_none|]. split; [exact Hs|]. split; [exact Hg|].
      split; [exact T0|].
      apply bind_inv in T as ([] & s3 & Hp & T). injection T as <-.
      unfold CurrencyExchangeCalculator.leave_menu, UI.goodbyeMessage in Hp.
      rewrite (bind_run _ _ _ _ _ (print_str_spec _ _)) in Hp.
      rewrite print_str_spec in Hp. cbn [cin cout] in Hp.
      injection Hp as <-. unfold currency_goodbye.
      now rewrite <- app_assoc.
    + exfalso. now apply then_again_value in T.
  - destruct (IH _ H) as (s & m & s0 & s1 & Hr & Hrest).
    exists s, m, s0, s1. split; [|exact Hrest].
    exact (round_more _ _ _ _ _ T Hr).
Qed.

(** X4.  The program returns only through the exit choice of the main menu.
    When [Program::run] returns, its loop, started after the welcome
    banner, went round some turns and came to a state [s] in which the
    turn showed the menu, read the validated choice 5 there, printed the
    goodbye and left: that turn's state is the state in which [run]
    returns.  In the same way the triangle activity returns only through
    the turn of its own loop that reads the choice 4, and the currency
    calculator only through the turn that reads the choice 3, each with
    its two exit messages as the last output. *)
Theorem menus_return_through_exit (fuel : nat) (st st' : io) :
  (Program.run fuel st = Some (tt, st') ->
   exists s m s0 s1,
     goes_round Program.turn (mkIO (cin st) (cout st ++ welcome)%list) s
     /\ Program.show_menu s = Some (tt, s0)
     /\ getValidatedChoice main_prompt 1 Program.size m s0 = Some (5, s1)
     /\ Program.turn m s = Some (Some tt, st')
     /\ st' = mkIO (cin s1) (cout s1 ++ [OStr main_goodbye])%list)
  /\ (TriangleLoopActivity.run fuel st = Some (tt, st') ->
      exists s m s0 s1,
        goes_round TriangleLoopActivity.turn
          (mkIO (cin st) (cout st ++ banner "Triangle Loop Activity")%list) s
        /\ TriangleLoopActivity.show_menu s = Some (tt, s0)
        /\ getValidatedChoice "Enter choice (1-4): " 1 4 m s0 = Some (4, s1)
        /\ TriangleLoopActivity.turn m s = Some (Some tt, st')
        /\ st' = mkIO (cin s1) (cout s1 ++ triangle_goodbye)%list)
  /\ (CurrencyExchangeCalculator.run fuel st = Some (tt, st') ->
      exists s m s0 s1,
        goes_round CurrencyExchangeCalculator.turn st s
        /\ CurrencyExchangeCalculator.show_menu s = Some (tt, s0)
        /\ getValidatedChoice "Enter choice (1-3): " 1 3 m s0 = Some (3, s1)
        /\ CurrencyExchangeCalculator.turn m s = Some (Some tt, st')
        /\ st' = mkIO (cin s1) (cout s1 ++ currency_goodbye)%list).
Proof.
  split; [|split]; intro H.
  - rewrite Program_run_loop in H. exact (Program_loop_exit _ _ _ H).
  - rewrite Triangle_run_loop in H. exact (Triangle_loop_exit _ _ _ H).
  - exact (Currency_loop_exit _ _ _ H).
Qed.

Lemma menus_return_through_exit_witness :
  let st := mkIO (text_in ("3" ++ nl ++ "4" ++ nl ++ "5" ++ nl)) [] in
  exists st',
    Program.run 6 st = Some (tt, st')
    /\ exists s m s0 s1,
         goes_round Program.turn (mkIO (cin st) (cout st ++ welcome)%list) s
         /\ Program.show_menu s = Some (tt, s0)
         /\ getValidatedChoice main_prompt 1 Program.size m s0 = Some (5, s1)
         /\ Program.turn m s = Some (Some tt, st')
         /\ st' = mkIO (cin s1) (cout s1 ++ [OStr main_goodbye])%list.
Proof.
  intro st.
  destruct (Program.run 6 st) as [[[] st']|] eqn:H;
    [|vm_compute in H; discriminate H].
  exists st'. split; [reflexivity|].
  exact (proj1 (menus_return_through_exit 6 st st') H).
Defined.

End Leaving.

(** ** Lines that are rejected, numbers that do not fit, input typed ahead *)

Section Rejected.
Import InputValidator ValidatorFacts.

Lemma rejected_lines_step {T} `{Extractable T} prompt
  (no_number : forall c rest, starts_no_number c ->
                              extract (T:=T) (c :: rest) = (None, c :: rest))
  ls : forall n rest out,
  Forall bad_line ls ->
  getValidated (T:=T) prompt (List.length ls + n)
    (mkIO (typed_lines ls ++ rest)%list out)
  = getValidated prompt n
      (mkIO rest (out ++ complaints prompt (List.length ls))%list).
Proof.
  induction ls as [|l ls IH]; intros n rest out Hb.
  - simpl. now rewrite app_nil_r.
  - inversion Hb as [|? ? Hl Hls]; subst.
    destruct l as [|c r]; [contradiction|]. destruct Hl as [Hc Hn].
    cbn [List.length Nat.add typed_lines].
    replace (((c :: r) ++ newline :: typed_lines ls) ++ rest)%list
      with (c :: (r ++ newline :: (typed_lines ls ++ rest)))%list
      by (simpl; now rewrite <- app_assoc).
    rewrite (getValidated_fail prompt _
               (mkIO (c :: (r ++ newline :: (typed_lines ls ++ rest)))%list out)
               _ (no_number c _ Hc)).
    cbn [cin cout].
    change (c :: (r ++ newline :: (typed_lines ls ++ rest)))%list
      with ((c :: r) ++ newline :: (typed_lines ls ++ rest))%list.
    rewrite (ignore_line_first _ _ Hn), (IH n rest _ Hls).
    now rewrite <- app_assoc.
Qed.

(** X5.  Each input line that starts with a character no number starts with
    costs a numeric read exactly one error message and one new prompt,
    however many words the line holds: after [k] such lines the read goes on
    with the input after them, having printed prompt and error [k] times. *)
Theorem rejected_lines_cost_one_error_each
  (prompt : string) (ls : list istream) (n : nat) (rest : istream)
  (out : ostream) :
  Forall bad_line ls ->
  getValidated (T:=Z) prompt (List.length ls + n)
    (mkIO (typed_lines ls ++ rest)%list out)
  = getValidated prompt n
      (mkIO rest (out ++ complaints prompt (List.length ls))%list)
  /\ getValidated (T:=double) prompt (List.length ls + n)
       (mkIO (typed_lines ls ++ rest)%list out)
     = getValidated prompt n
         (mkIO rest (out ++ complaints prompt (List.length ls))%list).
Proof.
  intro Hb. split; apply rejected_lines_step; trivial.
  - intros c r (Hs & Hd & Hm & Hp & _). now apply extract_int_no_number.
  - intros c r (Hs & Hd & Hm & Hp & Hdot). now apply extract_double_no_number.
Qed.

Lemma rejected_lines_cost_one_error_each_witness :
  let ls := [text_in "abc def"; text_in "x 12"] in
  Forall bad_line ls
  /\ getValidated (T:=Z) "> " (List.length ls + 1)
       (mkIO (typed_lines ls ++ text_in ("7" ++ nl))%list [])
     = getValidated "> " 1
         (mkIO (text_in ("7" ++ nl))
            ([] ++ complaints "> " (List.length ls))%list).
Proof.
  intro ls.
  assert (Hb : Forall bad_line ls).
  { repeat constructor; try reflexivity;
      intro H; repeat (destruct H as [H|H]; [discriminate H|]); exact H. }
  split; [exact Hb|].
  exact (proj1 (rejected_lines_cost_one_error_each "> " ls 1
                  (text_in ("7" ++ nl)) [] Hb)).
Defined.

End Rejected.

Section TooLarge.
Import InputValidator ValidatorFacts.

Lemma extract_int_too_large d ds c rest :
  digits (d :: ds) -> isdigit c = false ->
  INT_MAX < digits_value (d :: ds) ->
  extract_int ((d :: ds) ++ c :: rest)%list = (None, c :: rest).
Proof.
  intros Hd Hc Hv. unfold extract_int.
  destruct (digit_char d (Forall_inv Hd)) as (Hs & Hm & Hp & _).
  cbn [app]. rewrite (skipws_token _ _ Hs), (take_sign_none _ _ Hm Hp).
  change (d :: (ds ++ c :: rest))%list with ((d :: ds) ++ c :: rest)%list.
  rewrite (span_digits_run _ _ _ Hd Hc).
  assert (R : in_int (digits_value (d :: ds)) = false).
  { unfold in_int. apply andb_false_iff. right. apply Z.leb_gt. exact Hv. }
  now rewrite R.
Qed.

Lemma extract_int_too_small d ds c rest :
  digits (d :: ds) -> isdigit c = false ->
  - digits_value (d :: ds) < INT_MIN ->
  extract_int ("-"%char :: (d :: ds) ++ c :: rest)%list = (None, c :: rest).
Proof.
  intros Hd Hc Hv. unfold extract_int.
  rewrite (skipws_token "-"%char _ eq_refl).
  change (take_sign ("-"%char :: (d :: ds) ++ c :: rest)%list)
    with (true, ((d :: ds) ++ c :: rest)%list).
  cbv beta iota.
  rewrite (span_digits_run _ _ _ Hd Hc).
  assert (R : in_int (- digits_value (d :: ds)) = false).
  { unfold in_int. apply andb_false_iff. left. apply Z.leb_gt. exact Hv. }
  now rewrite R.
Qed.

Lemma attempts_after_failure {T} `{Extractable T} prompt bad complaint
  st s (v : T) st' :
  extract (T:=T) (cin st) = (None, s) ->
  attempts prompt bad complaint st v st'
  <-> attempts prompt bad complaint
        (mkIO (ignore_line s)
           (cout st ++ [OStr prompt; OStr parse_error])%list) v st'.
Proof.
  intro Ex. split.
  - intro A. inversion A as [? ? ? Ex' | ? ? ? ? Ex' A' | ? ? ? ? ? Ex']; subst;
      rewrite Ex in Ex'; try discriminate Ex'.
    now injection Ex' as <-.
  - now apply parse_failure.
Qed.

(** X6.  A number that does not fit an [int] is a parse failure, not a
    value out of range: whatever the bounds, [getValidatedChoice] answers it
    with the parse error, drops the rest of its line and reads again. *)
Theorem number_too_large_is_invalid_input
  (prompt : string) (min max : Z) (out : ostream)
  (d : ascii) (ds : list ascii) (c : ascii) (rest : istream)
  (v : Z) (st' : io) :
  digits (d :: ds) -> isdigit c = false ->
  let retry :=
    mkIO (ignore_line (c :: rest))
      (out ++ [OStr prompt; OStr parse_error])%list in
  (INT_MAX < digits_value (d :: ds) ->
   (returns (getValidatedChoice prompt min max)
      (mkIO ((d :: ds) ++ c :: rest)%list out) v st'
    <-> returns (getValidatedChoice prompt min max) retry v st'))
  /\ (- digits_value (d :: ds) < INT_MIN ->
      (returns (getValidatedChoice prompt min max)
         (mkIO ("-"%char :: (d :: ds) ++ c :: rest)%list out) v st'
       <-> returns (getValidatedChoice prompt min max) retry v st')).
Proof.
  intros Hd Hc retry. split; intro Hv; rewrite !getValidatedChoice_attempts.
  - apply (attempts_after_failure (T:=Z) prompt _ _
             (mkIO ((d :: ds) ++ c :: rest)%list out) (c :: rest)).
    now apply extract_int_too_large.
  - apply (attempts_after_failure (T:=Z) prompt _ _
             (mkIO ("-"%char :: (d :: ds) ++ c :: rest)%list out) (c :: rest)).
    now apply extract_int_too_small.
Qed.

Lemma number_too_large_is_invalid_input_witness :
  let rest := text_in ("3" ++ nl) in
  let st' := mkIO (text_in nl) [OStr "> "; OStr parse_error; OStr "> "] in
  digits (text_in "99999999999") /\ isdigit newline = false
  /\ INT_MAX < digits_value (text_in "99999999999")
  /\ returns (getValidatedChoice "> " 1 5)
       (mkIO (text_in "99999999999" ++ newline :: rest)%list []) 3 st'.
Proof.
  intros rest st'.
  assert (Hd : digits (text_in "99999999999")) by (repeat constructor).
  assert (Hv : INT_MAX < digits_value (text_in "99999999999")) by reflexivity.
  split; [exact Hd|]. split; [reflexivity|]. split; [exact Hv|].
  apply (proj1 (number_too_large_is_invalid_input "> " 1 5 []
                  "9"%char (text_in "9999999999") newline rest 3 st'
                  Hd eq_refl) Hv).
  exists 3%nat. vm_compute. reflexivity.
Defined.

End TooLarge.

Section TypedAhead.
Import InputValidator ValidatorFacts.

Lemma getValidatedChoice_accepts prompt min max n st v s :
  extract_int (cin st) = (Some v, s) -> bad_choice min max v = false ->
  getValidatedChoice prompt min max (S (S n)) st
  = Some (v, mkIO s (cout st ++ [OStr prompt])%list).
Proof.
  intros Ex B. rewrite getValidatedChoice_turn.
  now rewrite (getValidated_ok (E:=Extractable_int) prompt n st v s Ex), B.
Qed.

Lemma space_not_digit c : isspace c = true -> isdigit c = false.
Proof.
  destruct c as [[] [] [] [] [] [] [] []]; intro H; try discriminate H;
    reflexivity.
Qed.

Lemma extract_int_after_spaces ws s : spaces ws ->
  extract_int (ws ++ s)%list = extract_int s.
Proof. intro H. unfold extract_int. now rewrite (skipws_spaces _ _ H). Qed.

(** X7.  Values typed on one line answer the prompts that follow one
    another: with two numbers separated by white space in the input, two
    successive calls of [getValidatedChoice] return the first and the second
    without an error, both prompts being printed, and leave what follows
    the second number in the stream. *)
Theorem typed_ahead_answers_next_prompt
  (p1 p2 : string) (lo1 hi1 lo2 hi2 : Z) (n : nat) (out : ostream)
  (d1 : ascii) (ds1 : list ascii) (w : ascii) (ws : istream)
  (d2 : ascii) (ds2 : list ascii) (c : ascii) (rest : istream) :
  digits (d1 :: ds1) -> spaces (w :: ws) -> digits (d2 :: ds2) ->
  isdigit c = false ->
  let v1 := digits_value (d1 :: ds1) in
  let v2 := digits_value (d2 :: ds2) in
  in_int v1 = true -> in_int v2 = true ->
  lo1 <= v1 <= hi1 -> lo2 <= v2 <= hi2 ->
  (a <- getValidatedChoice p1 lo1 hi1 (S (S n)) ;;
   b <- getValidatedChoice p2 lo2 hi2 (S (S n)) ;;
   ret (a, b))
    (mkIO ((d1 :: ds1) ++ (w :: ws) ++ (d2 :: ds2) ++ c :: rest)%list out)
  = Some ((v1, v2), mkIO (c :: rest) (out ++ [OStr p1; OStr p2])%list).
Proof.
  intros Hd1 Hws Hd2 Hc v1 v2 Hi1 Hi2 Hr1 Hr2.
  assert (B1 : bad_choice lo1 hi1 v1 = false)
    by (unfold bad_choice; apply orb_false_iff; lia).
  assert (B2 : bad_choice lo2 hi2 v2 = false)
    by (unfold bad_choice; apply orb_false_iff; lia).
  assert (E1 : extract_int
                 ((d1 :: ds1) ++ w :: (ws ++ (d2 :: ds2) ++ c :: rest))%list
               = (Some v1, w :: (ws ++ (d2 :: ds2) ++ c :: rest))%list).
  { apply extract_int_prefix; trivial.
    apply space_not_digit. exact (Forall_inv Hws). }
  assert (E2 : extract_int ((w :: ws) ++ (d2 :: ds2) ++ c :: rest)%list
               = (Some v2, c :: rest)).
  { rewrite (extract_int_after_spaces _ _ Hws).
    now apply extract_int_prefix. }
  rewrite (bind_run _ _ _ _ _
             (getValidatedChoice_accepts p1 lo1 hi1 n
                (mkIO ((d1 :: ds1) ++ (w :: ws) ++ (d2 :: ds2) ++ c :: rest)%list
                   out) v1 _ E1 B1)).
  rewrite (bind_run _ _ _ _ _
             (getValidatedChoice_accepts p2 lo2 hi2 n
                (mkIO (w :: (ws ++ (d2 :: ds2) ++ c :: rest))%list
                   (out ++ [OStr p1])%list) v2 _ E2 B2)).
  unfold ret. cbn [cin cout]. now rewrite <- app_assoc.
Qed.

Lemma typed_ahead_answers_next_prompt_witness :
  digits (text_in "3") /\ spaces (text_in " ") /\ digits (text_in "15")
  /\ isdigit newline = false
  /\ (a <- getValidatedChoice "Enter choice (1-4): " 1 4 2 ;;
      b <- getValidatedChoice "Enter height (1-20): " 1 20 2 ;;
      ret (a, b))
       (mkIO (text_in "3" ++ text_in " " ++ text_in "15" ++ newline :: [])%list [])
     = Some ((3, 15),
             mkIO [newline]
               ([] ++ [OStr "Enter choice (1-4): ";
                       OStr "Enter height (1-20): "])%list).
Proof.
  assert (D1 : digits (text_in "3")) by (repeat constructor).
  assert (W : spaces (text_in " ")) by (repeat constructor).
  assert (D2 : digits (text_in "15")) by (repeat constructor).
  split; [exact D1|]. split; [exact W|]. split; [exact D2|].
  split; [reflexivity|].
  refine (typed_ahead_answers_next_prompt
            "Enter choice (1-4): " "Enter height (1-20): " 1 4 1 20 0 []
            "3"%char [] " "%char [] "1"%char (text_in "5") newline []
            D1 W D2 eq_refl eq_refl eq_refl _ _); cbv; split; discriminate.
Defined.

End TypedAhead.

(** ** Triangles of any height *)

Section AnyHeight.
Import TriangleLoopActivity TriangleFacts.

Lemma printed_right h :
  printed_lines (displayRightTriangle h)
  = Some (map (fun k => string_fill (S k) "*"%char) (seq 0 (Z.to_nat h))).
Proof.
  unfold printed_lines. rewrite displayRightTriangle_spec. cbn [cin cout app].
  rewrite right_rows_spec, Z.sub_0_r. cbn [app].
  rewrite text_of_rows. cbn [option_map]. rewrite lines_rows_text.
  f_equal. apply map_ext. intro k. f_equal. lia.
Qed.

Lemma printed_inverted h :
  printed_lines (displayInvertedTriangle h)
  = Some (map (fun k => string_fill (Z.to_nat h - k) "*"%char)
            (seq 0 (Z.to_nat h))).
Proof.
  unfold printed_lines. rewrite displayInvertedTriangle_spec.
  cbn [cin cout app].
  rewrite inverted_rows_spec, Z.sub_0_r. cbn [app].
  rewrite text_of_rows. cbn [option_map]. rewrite lines_rows_text.
  f_equal. apply map_ext_in. intros k Hk. apply in_seq in Hk. f_equal. lia.
Qed.

Lemma rev_map_seq {A} (f : nat -> A) n :
  rev (map f (seq 0 n)) = map (fun k => f (n - S k)%nat) (seq 0 n).
Proof.
  induction n as [|n IH]; [reflexivity|].
  rewrite seq_S at 1. rewrite map_app, rev_app_distr.
  cbn [map rev app Nat.add]. rewrite IH.
  change (seq 0 (S n)) with (0%nat :: seq 1 n). cbn [map].
  replace (S n - 1)%nat with n by lia. f_equal.
  rewrite <- seq_shift, map_map. apply map_ext. intro k. f_equal.
Qed.

(** X8.  For every height, zero and negative heights included, the inverted
    triangle is the right triangle upside down: its lines are the lines of
    the right triangle in reverse order. *)
Theorem inverted_is_right_reversed (h : Z) :
  exists right inverted,
    printed_lines (displayRightTriangle h) = Some right
    /\ printed_lines (displayInvertedTriangle h) = Some inverted
    /\ inverted = rev right.
Proof.
  eexists. eexists. split; [apply printed_right|].
  split; [apply printed_inverted|].
  rewrite rev_map_seq. apply map_ext_in. intros k Hk. apply in_seq in Hk.
  f_equal. lia.
Qed.

(** X9.  A height that is zero or negative prints nothing at all, and a
    positive height of any size prints that many lines: the functions
    themselves put no bound on the height. *)
Theorem triangles_of_any_height (h : Z) (st : io) :
  (h <= 0 ->
   displayRightTriangle h st = Some (tt, st)
   /\ displayInvertedTriangle h st = Some (tt, st))
  /\ (0 <= h ->
      exists right inverted,
        printed_lines (displayRightTriangle h) = Some right
        /\ printed_lines (displayInvertedTriangle h) = Some inverted
        /\ List.length right = Z.to_nat h
        /\ List.length inverted = Z.to_nat h).
Proof.
  split; intro Hh.
  - rewrite displayRightTriangle_spec, displayInvertedTriangle_spec.
    rewrite right_rows_spec, inverted_rows_spec.
    replace (Z.to_nat (h - 0)) with O by lia. cbn [rows app].
    now rewrite same_state.
  - eexists. eexists. split; [apply printed_right|].
    split; [apply printed_inverted|].
    now rewrite !length_map, !length_seq.
Qed.

Lemma triangles_of_any_height_witness :
  (-2 <= 0
   /\ displayRightTriangle (-2) (mkIO [] []) = Some (tt, mkIO [] [])
   /\ displayInvertedTriangle (-2) (mkIO [] []) = Some (tt, mkIO [] []))
  /\ (0 <= 25
      /\ exists right inverted,
           printed_lines (displayRightTriangle 25) = Some right
           /\ printed_lines (displayInvertedTriangle 25) = Some inverted
           /\ List.length right = 25%nat
           /\ List.length inverted = 25%nat).
Proof.
  assert (H1 : -2 <= 0) by lia. assert (H2 : 0 <= 25) by lia.
  split.
  - split; [exact H1|].
    exact (proj1 (triangles_of_any_height (-2) (mkIO [] [])) H1).
  - split; [exact H2|].
    exact (proj2 (triangles_of_any_height 25 (mkIO [] [])) H2).
Defined.

Lemma stars_in_app a b : stars_in (a ++ b)%list = (stars_in a + stars_in b)%nat.
Proof. unfold stars_in. now rewrite filter_app, length_app. Qed.

Lemma stars_in_repeat n : stars_in (repeat star n) = n.
Proof.
  induction n as [|n IH]; [reflexivity|].
  change (repeat star (S n)) with ([star] ++ repeat star n)%list.
  rewrite stars_in_app, IH. reflexivity.
Qed.

(** The stars of [n] rows, twice, when the widths go up or down by one. *)
Lemma stars_in_rows_up i n :
  0 <= i ->
  (2 * stars_in (rows (fun k => Z.to_nat (k + 1)) i n)
   = n * (2 * Z.to_nat i + n + 1))%nat.
Proof.
  revert i. induction n as [|n IH]; intros i Hi; [reflexivity|].
  cbn [rows]. rewrite !stars_in_app, stars_in_repeat.
  change (stars_in [OStr nl]) with O.
  specialize (IH (i + 1) ltac:(lia)).
  replace (Z.to_nat (i + 1)) with (S (Z.to_nat i)) in * by lia. nia.
Qed.

Lemma stars_in_rows_down h i n :
  0 <= i -> i + Z.of_nat n = h ->
  (2 * stars_in (rows (fun k => Z.to_nat (h - k)) i n) = n * (n + 1))%nat.
Proof.
  revert i. induction n as [|n IH]; intros i Hi Hn; [reflexivity|].
  cbn [rows]. rewrite !stars_in_app, stars_in_repeat.
  change (stars_in [OStr nl]) with O.
  specialize (IH (i + 1) ltac:(lia) ltac:(lia)).
  replace (Z.to_nat (h - i)) with (S n) by lia. nia.
Qed.

(** X10.  A triangle of height [h >= 0] takes [h * (h + 1) / 2] stars, the
    right one and the inverted one alike. *)
Theorem triangles_star_count (h : Z) (st : io) :
  0 <= h ->
  exists right inverted,
    displayRightTriangle h st
    = Some (tt, mkIO (cin st) (cout st ++ right)%list)
    /\ displayInvertedTriangle h st
       = Some (tt, mkIO (cin st) (cout st ++ inverted)%list)
    /\ 2 * Z.of_nat (stars_in right) = h * (h + 1)
    /\ stars_in inverted = stars_in right.
Proof.
  intro Hh.
  exists (rows (fun k => Z.to_nat (k + 1)) 0 (Z.to_nat h)),
         (rows (fun k => Z.to_nat (h - k)) 0 (Z.to_nat h)).
  pose proof (stars_in_rows_up 0 (Z.to_nat h) ltac:(lia)) as U.
  pose proof (stars_in_rows_down h 0 (Z.to_nat h) ltac:(lia) ltac:(lia)) as D.
  split; [|split; [|split]].
  - rewrite displayRightTriangle_spec, (right_rows_spec 0 h []), Z.sub_0_r.
    reflexivity.
  - rewrite displayInvertedTriangle_spec, (inverted_rows_spec 0 h []), Z.sub_0_r.
    reflexivity.
  - change (Z.to_nat 0) with O in U. nia.
  - change (Z.to_nat 0) with O in U. nia.
Qed.

Lemma triangles_star_count_witness :
  0 <= 4
  /\ exists right inverted,
       displayRightTriangle 4 (mkIO [] [])
       = Some (tt, mkIO [] ([] ++ right)%list)
       /\ displayInvertedTriangle 4 (mkIO [] [])
          = Some (tt, mkIO [] ([] ++ inverted)%list)
       /\ 2 * Z.of_nat (stars_in right) = 4 * (4 + 1)
       /\ stars_in inverted = stars_in right.
Proof.
  assert (H : 0 <= 4) by lia. split; [exact H|].
  exact (triangles_star_count 4 (mkIO [] []) H).
Defined.

End AnyHeight.

(** ** The number format of [cout] *)

Section Formats.
Import InputValidator ValidatorFacts CurrencyExchangeCalculator.

Lemma prints_displayRates : prints displayRates rates_items.
Proof.
  intro st. unfold displayRates.
  repeat (first
    [ rewrite (bind_run _ _ _ _ _ (header_spec _ _))
    | rewrite (bind_run _ _ _ _ _ (line_spec _))
    | rewrite (bind_run _ _ _ _ _ (print_str_spec _ _))
    | rewrite (bind_run _ _ _ _ _ (print_spec _ _)) ]; cbn [cin cout]).
  rewrite line_spec. cbn [cin cout]. unfold rates_items.
  do 2 f_equal. now rewrite <- !app_assoc.
Qed.

(** X11.  Viewing the rates always prints the same items, and how its
    numbers are written does not depend on what was printed before: the
    four rates are written in fixed notation with 4 decimals and the fee
    percentage with 0, because the format is set before the first number;
    fixed notation with precision 0 is the format it leaves behind. *)
Theorem rates_shown_the_same_every_time :
  exists items,
    (forall st,
        displayRates st = Some (tt, mkIO (cin st) (cout st ++ items)%list))
    /\ forall f0,
         shown_doubles f0 items
         = [ (mkFormat true 4, ddiv one USD_RATE);
             (mkFormat true 4, ddiv one EUR_RATE);
             (mkFormat true 4, ddiv one JPY_RATE);
             (mkFormat true 4, ddiv one AUD_RATE);
             (mkFormat true 0, dmul TRANSACTION_FEE_RATE (of_int 100)) ]
         /\ format_after f0 items = mkFormat true 0.
Proof.
  exists rates_items. split; [exact prints_displayRates|].
  intro f0. split; reflexivity.
Qed.

(** X12.  A conversion result writes all its numbers, the three amounts and
    the rate and converted amount of each currency, in fixed notation with
    2 decimals whatever the format was before, and leaves that format
    behind. *)
Theorem conversion_shown_with_two_decimals
  (amountInPHP fee netPHP usd eur jpy aud : double) (st : io) (f0 : format) :
  exists items,
    displayConversion amountInPHP fee netPHP usd eur jpy aud st
    = Some (tt, mkIO (cin st) (cout st ++ items)%list)
    /\ shown_doubles f0 items
       = map (pair (mkFormat true 2))
           [ amountInPHP; fee; netPHP; USD_RATE; usd; EUR_RATE; eur;
             JPY_RATE; jpy; AUD_RATE; aud ]
    /\ format_after f0 items = mkFormat true 2.
Proof.
  exists (conversion_items amountInPHP fee netPHP usd eur jpy aud).
  split; [apply displayConversion_spec|]. split; reflexivity.
Qed.

End Formats.

Section Quiet.
Import InputValidator ValidatorFacts CurrencyExchangeCalculator.

Lemma quiet_ret {A} (a : A) : quiet (ret a).
Proof.
  intros st x st' H. injection H as _ <-. exists []. split; [|constructor].
  now rewrite app_nil_r.
Qed.

Lemma quiet_bind {A B} (c : M A) (k : A -> M B) :
  quiet c -> (forall a, quiet (k a)) -> quiet (bind c k).
Proof.
  intros Hc Hk st b st' H. apply bind_inv in H as (a & s & H1 & H2).
  destruct (Hc _ _ _ H1) as (o1 & E1 & P1).
  destruct (Hk a _ _ _ H2) as (o2 & E2 & P2).
  exists (o1 ++ o2)%list. split; [|now apply Forall_app].
  now rewrite E2, E1, app_assoc.
Qed.

Lemma quiet_print x : plain x -> quiet (print x).
Proof.
  intros Hx st a st' H. injection H as _ <-. exists [x].
  split; [reflexivity | now constructor].
Qed.

Lemma quiet_print_str s : quiet (print_str s).
Proof. now apply quiet_print. Qed.

Lemma quiet_on_cin f : quiet (on_cin f).
Proof.
  intros st a st' H. injection H as _ <-. exists []. split; [|constructor].
  simpl. now rewrite app_nil_r.
Qed.

Lemma quiet_cin_extract {T} `{Extractable T} : quiet (cin_extract (T:=T)).
Proof.
  intros st a st' H0. unfold cin_extract in H0.
  destruct (extract (cin st)) as [r s]. injection H0 as _ <-.
  exists []. split; [|constructor]. simpl. now rewrite app_nil_r.
Qed.

Lemma quiet_loop {A} (body : nat -> M (option A)) :
  (forall n, quiet (body n)) -> forall n, quiet (loop body n).
Proof.
  intros Hb n. induction n as [|n IH]; intros st a st' H; [discriminate|].
  simpl in H. revert H. apply quiet_bind; [apply Hb|].
  intros [x|]; [apply quiet_ret | exact IH].
Qed.

Lemma quiet_getValidated {T} `{Extractable T} prompt n :
  quiet (getValidated (T:=T) prompt n).
Proof.
  apply quiet_loop. intros _.
  apply quiet_bind; [apply quiet_print_str|]. intros _.
  apply quiet_bind; [apply quiet_cin_extract|]. intros [v|].
  - apply quiet_ret.
  - apply quiet_bind; [apply quiet_print_str|]. intros _.
    apply quiet_bind; [apply quiet_on_cin|]. intros _. apply quiet_ret.
Qed.

Lemma quiet_getValidatedDouble prompt min max n :
  quiet (getValidatedDouble prompt min max n).
Proof.
  apply quiet_loop. intro m.
  apply quiet_bind; [apply quiet_getValidated|]. intro v.
  destruct (dlt v min || dgt v max); [|apply quiet_ret].
  repeat (apply quiet_bind; [now apply quiet_print|]; intros _).
  apply quiet_ret.
Qed.

Lemma quiet_header title : quiet (UI.header title).
Proof.
  unfold UI.header.
  repeat (apply quiet_bind; [apply quiet_print_str|]; intros _).
  apply quiet_print_str.
Qed.

Lemma quiet_line : quiet UI.line.
Proof.
  unfold UI.line. apply quiet_bind; [apply quiet_print_str|]; intros _.
  apply quiet_print_str.
Qed.

Lemma quiet_pauseBuffer : quiet UI.pauseBuffer.
Proof.
  unfold UI.pauseBuffer. apply quiet_bind; [apply quiet_print_str|]; intros _.
  apply quiet_bind; [apply quiet_on_cin|]; intros _. apply quiet_on_cin.
Qed.

Lemma quiet_collect fuel gs sum :
  quiet (StudentGradeEvaluator.collect fuel gs sum).
Proof.
  revert sum. induction gs as [|g gs IH]; intro sum; simpl.
  - apply quiet_ret.
  - apply quiet_bind; [apply quiet_getValidatedDouble|]. intro v.
    apply quiet_bind; [apply IH|]. intro r. apply quiet_ret.
Qed.

Lemma quiet_grade_run fuel : quiet (StudentGradeEvaluator.run fuel).
Proof.
  unfold StudentGradeEvaluator.run.
  apply quiet_bind; [apply quiet_header|]. intros _.
  apply quiet_bind; [apply quiet_collect|]. intro r. cbv zeta.
  apply quiet_bind; [apply quiet_line|]. intros _.
  do 7 (apply quiet_bind; [now apply quiet_print|]; intros _).
  apply quiet_bind; [destruct (dge _ _); apply quiet_header|]. intros _.
  apply quiet_bind; [apply quiet_line|]. intros _.
  apply quiet_pauseBuffer.
Qed.

Lemma plain_formats f o :
  Forall plain o ->
  format_after f o = f /\ shown_doubles f o = map (pair f) (doubles_of o).
Proof.
  induction 1 as [|x o Hx _ [IH1 IH2]]; [split; reflexivity|].
  destruct x as [s|n|d|m]; try contradiction; simpl; split; trivial.
  now f_equal.
Qed.

Lemma format_after_app f a b :
  format_after f (a ++ b)%list = format_after (format_after f a) b.
Proof. apply fold_left_app. Qed.

(** X13.  The grade evaluator never sets the number format.  So the numbers
    it prints, the bounds in a complaint about a grade out of range and the
    average, are written in the format that was in force before it started:
    once the rates were viewed, and whatever was printed without a
    manipulator since then, that is fixed notation with 0 decimals. *)
Theorem grade_average_in_inherited_format
  (fuel : nat) (st st' : io) :
  StudentGradeEvaluator.run fuel st = Some (tt, st') ->
  exists o,
    cout st' = (cout st ++ o)%list
    /\ (forall f0,
          format_after f0 o = f0
          /\ shown_doubles f0 o = map (pair f0) (doubles_of o))
    /\ (forall before between f0,
          Forall plain between ->
          cout st = (before ++ rates_items ++ between)%list ->
          shown_doubles (format_after f0 (cout st)) o
          = map (pair (mkFormat true 0)) (doubles_of o)).
Proof.
  intro H. destruct (quiet_grade_run fuel _ _ _ H) as (o & E & P).
  exists o. split; [exact E|]. split.
  - intro f0. now apply plain_formats.
  - intros before between f0 Hb Ec.
    rewrite (proj2 (plain_formats _ o P)). f_equal. f_equal.
    rewrite Ec, !format_after_app.
    rewrite (proj1 (plain_formats _ between Hb)). reflexivity.
Qed.

Lemma grade_average_in_inherited_format_witness :
  let st := mkIO (text_in ("82 83 82 83" ++ nl ++ nl))
              (rates_items ++ [OStr press_enter])%list in
  exists st' average,
    StudentGradeEvaluator.run 2 st = Some (tt, st')
    /\ exists o,
         cout st' = (cout st ++ o)%list
         /\ shown_doubles (format_after default_format (cout st)) o
            = [(mkFormat true 0, average)]
         /\ average = of_decimal false 825 (-1).
Proof.
  intro st.
  destruct (StudentGradeEvaluator.run 2 st) as [[[] st']|] eqn:H;
    [|vm_compute in H; discriminate H].
  exists st', (of_decimal false 825 (-1)). split; [reflexivity|].
  destruct (grade_average_in_inherited_format 2 st st' H) as (o & E & _ & F).
  exists o. split; [exact E|]. split; [|reflexivity].
  rewrite (F [] [OStr press_enter] default_format
             (@Forall_cons _ plain (OStr press_enter) [] I (Forall_nil plain))
             eq_refl).
  f_equal.
  assert (C : cout st'
              = (cout st
                 ++ banner "Student Grade Evaluator"
                 ++ [OStr "Enter Prelim Grade: "; OStr "Enter Midterm Grade: ";
                     OStr "Enter PreFinal Grade: "; OStr "Enter Final Grade: "]
                 ++ evaluation (of_decimal false 825 (-1)))%list).
  { vm_compute in H. injection H as <-. vm_compute. reflexivity. }
  rewrite C in E. apply app_inv_head in E. subst o. vm_compute. reflexivity.
Defined.

End Quiet.

(** ** What a validated read hands over *)

Section HandedOver.
Import InputValidator ValidatorFacts.

Lemma extract_double_finite s v s' :
  extract_double s = (Some v, s') -> is_finite v = true.
Proof.
  intro H. pose proof (DoubleFacts.extract_double_not_nan _ _ _ H) as Hn.
  revert H. unfold extract_double.
  destruct (take_sign (skipws s)) as [neg s1].
  destruct (span_digits s1) as [ip s2].
  destruct (match s2 with
            | [] => ([], [])
            | c :: r => if Ascii.eqb c "."%char then span_digits r else ([], s2)
            end) as [fp s3].
  destruct (ip ++ fp)%list as [|d ds]; [discriminate|].
  destruct (take_exponent s3) as [[[e|]|] s4]; try discriminate; cbv zeta;
    destruct (is_infinity _) eqn:I; try discriminate;
    intro H; injection H as <- _;
    destruct (of_decimal _ _ _); try reflexivity; try discriminate I;
    now destruct Hn.
Qed.

Lemma span_digits_stops s : no_digit_next (snd (span_digits s)).
Proof.
  induction s as [|c s IH]; simpl; [exact I|].
  destruct (isdigit c) eqn:D; [|exact D].
  now destruct (span_digits s).
Qed.

Lemma extract_int_stops s v s' :
  extract_int s = (Some v, s') -> no_digit_next s'.
Proof.
  unfold extract_int. destruct (take_sign (skipws s)) as [neg s1].
  pose proof (span_digits_stops s1) as H.
  destruct (span_digits s1) as [[|d ds] s2]; [discriminate|].
  destruct (in_int _); [|discriminate]. intro E. now injection E as _ <-.
Qed.

Lemma attempts_last {T} `{Extractable T} prompt bad complaint st (v : T) st' :
  attempts prompt bad complaint st v st' ->
  exists st0, extract (cin st0) = (Some v, cin st')
              /\ cout st' = (cout st0 ++ [OStr prompt])%list.
Proof. induction 1; eauto. Qed.

(** X14.  Whatever the bounds are, [getValidatedDouble] returns a finite
    number, never an infinity or a NaN; [getValidatedChoice] returns a
    number read to its last digit, so that the input left does not go on
    with a digit; and the last thing either printed is its prompt. *)
Theorem validated_reads_hand_over (prompt : string) (st st' : io) :
  (forall min max v,
      returns (getValidatedDouble prompt min max) st v st' ->
      is_finite v = true
      /\ exists o, cout st' = (o ++ [OStr prompt])%list)
  /\ (forall min max v,
      returns (getValidatedChoice prompt min max) st v st' ->
      no_digit_next (cin st')
      /\ exists o, cout st' = (o ++ [OStr prompt])%list).
Proof.
  split; intros min max v R.
  - apply getValidatedDouble_attempts, attempts_last in R
      as (st0 & Ex & Eo).
    split; [exact (extract_double_finite _ _ _ Ex) | now exists (cout st0)].
  - apply getValidatedChoice_attempts, attempts_last in R
      as (st0 & Ex & Eo).
    split; [exact (extract_int_stops _ _ _ Ex) | now exists (cout st0)].
Qed.

Lemma validated_reads_hand_over_witness :
  let st := mkIO (text_in ("1e999" ++ nl ++ "12.5 6" ++ nl)) [] in
  let st' :=
    mkIO (text_in (" 6" ++ nl)) [OStr "> "; OStr parse_error; OStr "> "] in
  returns (getValidatedDouble "> " (of_int 0) (of_int 100)) st
    (of_decimal false 125 (-1)) st'
  /\ is_finite (of_decimal false 125 (-1)) = true.
Proof.
  intros st st'.
  assert (R : returns (getValidatedDouble "> " (of_int 0) (of_int 100)) st
                (of_decimal false 125 (-1)) st')
    by (exists 3%nat; vm_compute; reflexivity).
  split; [exact R|].
  exact (proj1 (proj1 (validated_reads_hand_over "> " st st') _ _ _ R)).
Defined.

End HandedOver.
